(** * Dataset search front end and rate-limited fetcher: a shallow embedding

  The development follows the repository's layout.

  - [Js]       : the JavaScript built-ins the scripts rely on
                 ([trim], [toLowerCase], [endsWith], [join],
                 [encodeURIComponent], [findIndex], [splice], ...).
  - [Config]   : config.js.
  - [Upload]   : the [DatasetManager] of the upload/keyword front end
                 (file validation, uploaded-file list, both searches).
  - [Script]   : the [DatasetManager] of script.js (keyword search and
                 the download selection).
  - [Fetcher]  : the rate-limited fetcher of the backend.
  - [Normalizer] : the result normalizer of the backend.
  - [Utf16]    : [trim] and [encodeURIComponent] on strings of arbitrary
                 code units, and the keyword searches with them.
  - [UploadView] : icons, the files panel and the drop area of the
                 upload/keyword front end.
  - [Download] : [handleDownload] of script.js.
  - [Combined] : the [DatasetManager] of the third version of the script
                 (uploads, searches, selection and download of files).

  JavaScript strings are modelled as [string]; a character stands for a
  UTF-16 code unit below 256 (the Latin-1 range). [Utf16] has the value
  of the search box as a sequence of arbitrary code units. *)

From Stdlib Require Import NArith ZArith Ascii String List Lia Bool.
From stdpp Require Import base list strings gmap pretty.
From Equations Require Import Equations.

Local Open Scope string_scope.
Local Open Scope list_scope.

(** ** JavaScript built-ins *)

Module Js.

(** White space as [String.prototype.trim] sees it, restricted to code
    units below 256: TAB, LF, VT, FF, CR, SPACE and NBSP. *)
Definition isWhiteSpace (c : ascii) : bool :=
  let n := nat_of_ascii c in
  (Nat.leb 9 n && Nat.leb n 13) || Nat.eqb n 32 || Nat.eqb n 160.

Fixpoint trimStart (s : string) : string :=
  match s with
  | String c s' => if isWhiteSpace c then trimStart s' else s
  | EmptyString => EmptyString
  end.

(** [trimEnd] drops the trailing white space: a character is kept as soon
    as something that is not white space follows it or it is not white
    space itself. *)
Fixpoint trimEnd (s : string) : string :=
  match s with
  | String c s' =>
      match trimEnd s' with
      | EmptyString => if isWhiteSpace c then EmptyString else String c EmptyString
      | t => String c t
      end
  | EmptyString => EmptyString
  end.

Definition trim (s : string) : string := trimEnd (trimStart s).

(** A string that is empty or made of white space only. *)
Definition blank (s : string) : bool :=
  forallb isWhiteSpace (list_ascii_of_string s).

(** Truthiness of a string: only the empty string is falsy. *)
Definition truthy (s : string) : bool :=
  match s with EmptyString => false | _ => true end.

(** [String.prototype.toLowerCase] on code units below 256: A-Z and the
    Latin-1 capitals U+00C0..U+00DE (U+00D7 is the multiplication sign)
    move up by 32. *)
Definition lowerChar (c : ascii) : ascii :=
  let n := nat_of_ascii c in
  if (Nat.leb 65 n && Nat.leb n 90)
     || (Nat.leb 192 n && Nat.leb n 222 && negb (Nat.eqb n 215))
  then ascii_of_nat (n + 32) else c.

Fixpoint toLowerCase (s : string) : string :=
  match s with
  | String c s' => String (lowerChar c) (toLowerCase s')
  | EmptyString => EmptyString
  end.

(** [s.endsWith(suffix)]. *)
Definition endsWith (s suffix : string) : bool :=
  let n := String.length s in
  let k := String.length suffix in
  Nat.leb k n && String.eqb (substring (n - k) k s) suffix.

(** [Array.prototype.join]. *)
Definition join (sep : string) (l : list string) : string :=
  String.concat sep l.

Definition hexDigit (n : nat) : ascii :=
  if Nat.ltb n 10 then ascii_of_nat (48 + n) else ascii_of_nat (55 + n).

Definition percent (n : nat) : string :=
  String "%" (String (hexDigit (n / 16)) (String (hexDigit (n mod 16)) EmptyString)).

(** Characters [encodeURIComponent] leaves alone:
    A-Z a-z 0-9 - _ . ! ~ * ' ( ) *)
Definition unreserved (c : ascii) : bool :=
  let n := nat_of_ascii c in
  (Nat.leb 65 n && Nat.leb n 90) || (Nat.leb 97 n && Nat.leb n 122)
  || (Nat.leb 48 n && Nat.leb n 57)
  || existsb (Nat.eqb n) [45; 95; 46; 33; 126; 42; 39; 40; 41]%nat.

(** Every other code unit is escaped through its UTF-8 encoding: one byte
    below 128, two bytes from 128 to 255. No surrogate occurs below 256,
    so that the function does not throw on these strings;
    [Utf16.encodeURIComponent] is the function on any string. *)
Definition encodeChar (c : ascii) : string :=
  let n := nat_of_ascii c in
  if unreserved c then String c EmptyString
  else if Nat.ltb n 128 then percent n
  else percent (192 + n / 64) +:+ percent (128 + n mod 64).

Fixpoint encodeURIComponent (s : string) : string :=
  match s with
  | String c s' => encodeChar c +:+ encodeURIComponent s'
  | EmptyString => EmptyString
  end.

(** [Array.prototype.splice(start, 1)] on the data: a negative [start]
    counts from the end (clamped at 0), a [start] past the end removes
    nothing. *)
Definition spliceStart (len : nat) (start : Z) : nat :=
  if (start <? 0)%Z then Z.to_nat (Z.max (Z.of_nat len + start) 0)
  else Nat.min (Z.to_nat start) len.

Definition splice1 {A} (start : Z) (l : list A) : list A :=
  delete (spliceStart (length l) start) l.

(** [arr.map((x, index) => f x index)]. *)
Fixpoint mapi_from {A B} (i : Z) (f : A → Z → B) (l : list A) : list B :=
  match l with
  | [] => []
  | x :: l' => f x i :: mapi_from (i + 1)%Z f l'
  end.

Definition mapi {A B} (f : A → Z → B) (l : list A) : list B := mapi_from 0%Z f l.

End Js.

(** ** config.js *)

Module Config.
Definition BACKEND_URL : string := "https://data-lakes-management.onrender.com".
End Config.

(** ** The browser as the scripts see it

  The handlers are modelled as functions from the manager's state (and
  what the page and the network hand them) to the new state and the list
  of effects they perform, in order. [console.log] and [console.error]
  calls are diagnostic only and are left out. [SetParagraph id c t]
  stands for [document.getElementById(id).innerHTML = '<p class=c>t</p>'],
  [RenderList id items] for the assignment of a rendered list,
  [SetChecked id b] for the update of the checkbox of dataset [id] when
  the page has one, [SetDownloadButton n] for the state and label of the
  download button when [n] datasets are selected, and [Uncaught e] for
  an exception that leaves the handler. *)

Module Dom.

(** A [File] of the file picker or of a drop. *)
Record File := { name : string; type : string; size : N }.

(** One record of the [datasets] array of a backend answer. [tags] is
    [None] when the record comes without a [tags] array. *)
Record MarketplaceRecord := {
  reference : string;
  title : string;
  license : string;
  tags : option (list string);
  last_updated : string;
  files : list (string * string)
}.

(** A request handed to [fetch]. *)
Inductive Request :=
| GET (url : string)
| POST_FormData (url : string) (files : list File).

(** What awaiting [fetch] and then [response.json()] can give: the
    promise rejects, the status is not ok, the body has no [datasets]
    array of records (mapping over it throws), or it has one. *)
Inductive Response :=
| NetworkFailure
| NotOk (status : N)
| Malformed
| Body (datasets : list MarketplaceRecord) (message : string).

Inductive Effect :=
| Alert (message : string)
| Fetch (request : Request)
| SetParagraph (elementId : string) (class : string) (text : string)
| RenderList (elementId : string) (items : list string)
| SetDisplay (elementId : string) (display : string)
| SetValue (elementId : string) (value : string)
| SetChecked (datasetId : Z) (checked : bool)
| SetDownloadButton (selected : nat)
| Uncaught (error : string).

Definition isFetch (e : Effect) : bool :=
  match e with Fetch _ => true | _ => false end.

Definition isUncaught (e : Effect) : bool :=
  match e with Uncaught _ => true | _ => false end.

(** [try { body } catch (error) { handler }]: what the body did before it
    threw, then the handler. *)
Definition tryCatch (body handler : list Effect) : list Effect :=
  if existsb isUncaught body
  then List.filter (fun e => negb (isUncaught e)) body ++ handler
  else body.

End Dom.

(** ** The upload and keyword front end *)

Module Upload.
Import Dom.

Record Dataset := {
  id : Z;
  title : string;
  reference : string;
  license : string;
  tags : option (list string);
  last_updated : string;
  files : list (string * string);
  category : string
}.

Record DatasetManager := {
  availableDatasets : list Dataset;
  uploadedFiles : list File;
  selectedDataset : option Dataset;
  currentMode : string
}.

Definition constructor : DatasetManager :=
  {| availableDatasets := []; uploadedFiles := [];
     selectedDataset := None; currentMode := "files" |}.

Definition allowedTypes : list string := [".csv"; ".pdf"; ".docx"; ".xlsx"].

(** [isValidFileType(file)] *)
Definition isValidFileType (file : File) : bool :=
  let fileName := Js.toLowerCase (name file) in
  existsb (fun type => Js.endsWith fileName type) allowedTypes.

(** A file whose name ends, whatever the case of its letters, in one of
    the allowed extensions. *)
Definition supported (file : File) : Prop :=
  Exists (fun type => Js.endsWith (Js.toLowerCase (name file)) type = true) allowedTypes.

#[global] Instance supported_dec (file : File) : Decision (supported file).
Proof. unfold supported. apply _. Defined.

Definition unsupportedMessage (invalidNames : string) : string :=
  "The following files are not supported: " +:+ invalidNames +:+
  String (ascii_of_nat 10) (String (ascii_of_nat 10)
    "Supported formats: CSV, PDF, Word (.docx), Excel (.xlsx)").

(** [renderUploadedFiles()] *)
Definition renderUploadedFiles (m : DatasetManager) : list Effect :=
  match uploadedFiles m with
  | [] => [SetDisplay "uploadedFiles" "none"]
  | fs => [SetDisplay "uploadedFiles" "block"; RenderList "fileList" (map name fs)]
  end.

(** [handleFileSelect(files)] *)
Definition handleFileSelect (files : list File) (m : DatasetManager)
  : DatasetManager * list Effect :=
  let validFiles := List.filter isValidFileType files in
  let invalidFiles := List.filter (fun f => negb (isValidFileType f)) files in
  let alerts :=
    if Nat.ltb 0 (length invalidFiles)
    then [Alert (unsupportedMessage (Js.join ", " (map name invalidFiles)))]
    else [] in
  if Nat.ltb 0 (length validFiles) then
    let m' := {| availableDatasets := availableDatasets m;
                 uploadedFiles := uploadedFiles m ++ validFiles;
                 selectedDataset := selectedDataset m;
                 currentMode := currentMode m |} in
    (m', alerts ++ renderUploadedFiles m')
  else (m, alerts).

(** [removeFile(index)] *)
Definition removeFile (index : Z) (m : DatasetManager)
  : DatasetManager * list Effect :=
  let m' := {| availableDatasets := availableDatasets m;
               uploadedFiles := Js.splice1 index (uploadedFiles m);
               selectedDataset := selectedDataset m;
               currentMode := currentMode m |} in
  (m', renderUploadedFiles m').

(** [handleModeChange(mode)] *)
Definition handleModeChange (mode : string) (m : DatasetManager)
  : DatasetManager * list Effect :=
  ({| availableDatasets := availableDatasets m;
      uploadedFiles := uploadedFiles m;
      selectedDataset := selectedDataset m;
      currentMode := mode |},
   if String.eqb mode "files"
   then [SetDisplay "fileUploadArea" "flex"; SetDisplay "searchInputArea" "none"]
   else [SetDisplay "fileUploadArea" "none"; SetDisplay "searchInputArea" "flex"]).

Definition toDataset (category : string) (dataset : MarketplaceRecord) (index : Z) : Dataset :=
  {| id := index + 1;
     title := Dom.title dataset;
     reference := Dom.reference dataset;
     license := Dom.license dataset;
     tags := Dom.tags dataset;
     last_updated := Dom.last_updated dataset;
     files := Dom.files dataset;
     category := category |}.

Definition tagged (d : Dataset) : bool :=
  match tags d with Some _ => true | None => false end.

(** [renderAvailableDatasets()]: the template of an entry calls
    [dataset.tags.map], which throws when a dataset has no [tags] array;
    the list is not assigned then. *)
Definition renderAvailableDatasets (m : DatasetManager) : list Effect :=
  match availableDatasets m with
  | [] => [SetParagraph "availableDatasets" "no-data"
             "No datasets found matching your search criteria."]
  | ds =>
      if forallb tagged ds
      then [RenderList "availableDatasets" (map reference ds)]
      else [Uncaught "TypeError"]
  end.

Definition withAvailable (ds : list Dataset) (m : DatasetManager) : DatasetManager :=
  {| availableDatasets := ds;
     uploadedFiles := uploadedFiles m;
     selectedDataset := selectedDataset m;
     currentMode := currentMode m |}.

Definition backendError (what : string) : Effect :=
  SetParagraph "availableDatasets" "error"
    ("Error searching " +:+ what +:+
     ". Please make sure the backend server is running on " +:+ Config.BACKEND_URL).

(** [handleSearchWithFiles()]; [net] is what the awaited [fetch] gives.
    With a usable answer the results are replaced and then rendered; when
    rendering throws, the [catch] block shows the error in their place, as
    it does for every other failure. *)
Definition handleSearchWithFiles (net : Response) (m : DatasetManager)
  : DatasetManager * list Effect :=
  if Nat.eqb (length (uploadedFiles m)) 0 then
    (m, [Alert "Please upload at least one file before searching for similar datasets."])
  else
    let request :=
      [SetParagraph "availableDatasets" "loading" "Searching for similar datasets...";
       Fetch (POST_FormData (Config.BACKEND_URL +:+ "/search-files") (uploadedFiles m))] in
    match net with
    | Body datasets _ =>
        let m' := withAvailable (Js.mapi (toDataset "Similar Dataset") datasets) m in
        (m', request ++ tryCatch (renderAvailableDatasets m')
                          [backendError "for similar datasets"])
    | _ => (m, request ++ [backendError "for similar datasets"])
    end.

(** The [try] block of [handleSearchWithKeyword()]. [query] is what
    [encodeURIComponent(searchTerm)] gives, [None] when it throws a
    [URIError]: the template of the URL is evaluated after the loading
    note is shown and before [fetch] is called. *)
Definition keywordRequest (query : option string) (net : Response)
    (m : DatasetManager) : DatasetManager * list Effect :=
  let loading := SetParagraph "availableDatasets" "loading" "Searching datasets..." in
  match query with
  | None => (m, [loading; backendError "datasets"])
  | Some query =>
      let request :=
        [loading;
         Fetch (GET (Config.BACKEND_URL +:+ "/search-keyword?keyword=" +:+ query))] in
      match net with
      | Body datasets _ =>
          let m' := withAvailable (Js.mapi (toDataset "Search Result") datasets) m in
          (m', request ++ tryCatch (renderAvailableDatasets m') [backendError "datasets"])
      | _ => (m, request ++ [backendError "datasets"])
      end
  end.

(** [handleSearchWithKeyword()]; [searchInput] is the value of the search
    box, [net] what the awaited [fetch] gives. On a string of code units
    below 256 [encodeURIComponent] does not throw. *)
Definition handleSearchWithKeyword (searchInput : string) (net : Response)
    (m : DatasetManager) : DatasetManager * list Effect :=
  let searchTerm := Js.trim searchInput in
  if negb (Js.truthy searchTerm) then
    (m, [Alert "Please enter a search keyword"])
  else keywordRequest (Some (Js.encodeURIComponent searchTerm)) net m.

(** [handleSearch()] *)
Definition handleSearch (searchInput : string) (net : Response)
    (m : DatasetManager) : DatasetManager * list Effect :=
  if String.eqb (currentMode m) "files"
  then handleSearchWithFiles net m
  else handleSearchWithKeyword searchInput net m.

(** [clearAll()] *)
Definition clearAll (m : DatasetManager) : DatasetManager * list Effect :=
  ({| availableDatasets := []; uploadedFiles := [];
      selectedDataset := None; currentMode := currentMode m |},
   [SetParagraph "availableDatasets" "no-data"
      "No search results yet. Upload files or enter a keyword to search for datasets.";
    SetParagraph "filesList" "no-data" "Click on a dataset to view its files.";
    SetDisplay "uploadedFiles" "none";
    SetValue "fileInput" EmptyString;
    SetValue "searchInput" EmptyString]).

(** The operations of the manager that touch [uploadedFiles], and the
    other user actions of the page. *)
Inductive Action :=
| OnFileSelect (files : list File)
| OnRemoveFile (index : Z)
| OnClearAll
| OnModeChange (mode : string)
| OnSearch (searchInput : string) (net : Response).

Definition perform (a : Action) (m : DatasetManager) : DatasetManager * list Effect :=
  match a with
  | OnFileSelect files => handleFileSelect files m
  | OnRemoveFile index => removeFile index m
  | OnClearAll => clearAll m
  | OnModeChange mode => handleModeChange mode m
  | OnSearch searchInput net => handleSearch searchInput net m
  end.

(** The manager after a sequence of actions, with everything it did. *)
Fixpoint run (actions : list Action) (m : DatasetManager) : DatasetManager * list Effect :=
  match actions with
  | [] => (m, [])
  | a :: rest =>
      let '(m1, e1) := perform a m in
      let '(m2, e2) := run rest m1 in
      (m2, e1 ++ e2)
  end.

(** The files a request carries to the backend. *)
Definition sentFiles (e : Effect) : list File :=
  match e with
  | Fetch (POST_FormData _ files) => files
  | _ => []
  end.

End Upload.

(** ** script.js: keyword search and the download selection *)

Module Script.
Import Dom.

Record Dataset := {
  id : Z;
  name : string;
  description : string;
  category : string
}.

(** An entry of [downloadDatasets] is a dataset or, when
    [toggleDatasetSelection] pushed the result of a failed [find],
    [undefined] ([None]). *)
Record DatasetManager := {
  availableDatasets : list Dataset;
  downloadDatasets : list (option Dataset)
}.

Definition constructor : DatasetManager :=
  {| availableDatasets := []; downloadDatasets := [] |}.

(** [availableDatasets.find(d => d.id === datasetId)] *)
Definition findAvailable (datasetId : Z) (m : DatasetManager) : option Dataset :=
  List.find (fun d => (id d =? datasetId)%Z) (availableDatasets m).

(** The result of [findIndex(d => d.id === datasetId)] on the download
    list: reading [d.id] of an [undefined] entry throws. *)
Inductive Found := Index (i : nat) | Minus1 | TypeError.

Fixpoint findIndex (datasetId : Z) (l : list (option Dataset)) : Found :=
  match l with
  | [] => Minus1
  | None :: _ => TypeError
  | Some d :: l' =>
      if (id d =? datasetId)%Z then Index 0
      else match findIndex datasetId l' with
           | Index i => Index (S i)
           | r => r
           end
  end.

(** [downloadDatasets.filter(d => d.id !== datasetId)], [None] when the
    callback throws. *)
Fixpoint filterOut (datasetId : Z) (l : list (option Dataset))
  : option (list (option Dataset)) :=
  match l with
  | [] => Some []
  | None :: _ => None
  | Some d :: l' =>
      match filterOut datasetId l' with
      | None => None
      | Some r => Some (if (id d =? datasetId)%Z then r else Some d :: r)
      end
  end.

Definition withDownloads (ds : list (option Dataset)) (m : DatasetManager) : DatasetManager :=
  {| availableDatasets := availableDatasets m; downloadDatasets := ds |}.

(** [updateDownloadButton()] *)
Definition updateDownloadButton (m : DatasetManager) : list Effect :=
  [SetDownloadButton (length (downloadDatasets m))].

(** [renderDownloadDatasets()]: the template reads [dataset.id] of every
    entry, which throws on [undefined]. *)
Definition renderDownloadDatasets (m : DatasetManager) : list Effect :=
  match downloadDatasets m with
  | [] => [SetParagraph "downloadDatasets" "no-data" "Selected datasets will appear here."]
  | ds =>
      if forallb (fun d => match d with Some _ => true | None => false end) ds
      then [RenderList "downloadDatasets"
              (map (fun d => match d with Some d => name d | None => EmptyString end) ds)]
      else [Uncaught "TypeError"]
  end.

(** Statements after one that threw are not run. *)
Definition andThen (first next : list Effect) : list Effect :=
  if existsb (fun e => match e with Uncaught _ => true | _ => false end) first
  then first else first ++ next.

(** [toggleDatasetSelection(datasetId)] *)
Definition toggleDatasetSelection (datasetId : Z) (m : DatasetManager)
  : DatasetManager * list Effect :=
  let dataset := findAvailable datasetId m in
  match findIndex datasetId (downloadDatasets m) with
  | TypeError => (m, [Uncaught "TypeError"])
  | Minus1 =>
      let m' := withDownloads (downloadDatasets m ++ [dataset]) m in
      (m', andThen (renderDownloadDatasets m') (updateDownloadButton m'))
  | Index existingIndex =>
      let m' := withDownloads (delete existingIndex (downloadDatasets m)) m in
      (m', andThen (renderDownloadDatasets m') (updateDownloadButton m'))
  end.

(** [addToDownloadList(datasetId)] *)
Definition addToDownloadList (datasetId : Z) (m : DatasetManager)
  : DatasetManager * list Effect :=
  match findAvailable datasetId m with
  | None => (m, [])
  | Some dataset =>
      match findIndex datasetId (downloadDatasets m) with
      | TypeError => (m, [Uncaught "TypeError"])
      | Minus1 =>
          let m' := withDownloads (downloadDatasets m ++ [Some dataset]) m in
          (m', SetChecked datasetId true
                 :: andThen (renderDownloadDatasets m') (updateDownloadButton m'))
      | Index _ =>
          (m, andThen (renderDownloadDatasets m) (updateDownloadButton m))
      end
  end.

(** [removeFromDownloadList(datasetId)] *)
Definition removeFromDownloadList (datasetId : Z) (m : DatasetManager)
  : DatasetManager * list Effect :=
  match filterOut datasetId (downloadDatasets m) with
  | None => (m, [Uncaught "TypeError"])
  | Some ds =>
      let m' := withDownloads ds m in
      (m', SetChecked datasetId false
             :: andThen (renderDownloadDatasets m') (updateDownloadButton m'))
  end.

(** [clearAll()] *)
Definition clearAll (m : DatasetManager) : DatasetManager * list Effect :=
  let m' := {| availableDatasets := []; downloadDatasets := [] |} in
  (m', [SetParagraph "availableDatasets" "no-data"
          "No search results yet. Enter a keyword to search for datasets.";
        SetParagraph "downloadDatasets" "no-data" "Selected datasets will appear here.";
        SetValue "searchInput" EmptyString] ++ updateDownloadButton m').

Definition toDataset (dataset : MarketplaceRecord) (index : Z) : Dataset :=
  {| id := index + 1;
     name := Dom.title dataset;
     description := Dom.reference dataset;
     category := "Kaggle Dataset" |}.

(** [renderAvailableDatasets()] *)
Definition renderAvailableDatasets (m : DatasetManager) : list Effect :=
  match availableDatasets m with
  | [] => [SetParagraph "availableDatasets" "no-data"
             "No datasets found matching your search criteria."]
  | ds => [RenderList "availableDatasets" (map description ds)]
  end.

Definition backendError : Effect :=
  SetParagraph "availableDatasets" "error"
    ("Error searching datasets. Please make sure the backend server is running on "
     +:+ Config.BACKEND_URL).

(** The [try] block of [handleSearch()]. [query] is what
    [encodeURIComponent(searchTerm)] gives, [None] when it throws a
    [URIError]: the template of the URL is evaluated after the loading
    note is shown and before [fetch] is called. *)
Definition keywordRequest (query : option string) (net : Response)
    (m : DatasetManager) : DatasetManager * list Effect :=
  let loading := SetParagraph "availableDatasets" "loading" "Searching datasets..." in
  match query with
  | None => (m, [loading; backendError])
  | Some query =>
      let request :=
        [loading; Fetch (GET (Config.BACKEND_URL +:+ "/search?keyword=" +:+ query))] in
      match net with
      | Body datasets _ =>
          let m' := {| availableDatasets := Js.mapi toDataset datasets;
                       downloadDatasets := downloadDatasets m |} in
          (m', request ++ renderAvailableDatasets m')
      | _ => (m, request ++ [backendError])
      end
  end.

(** [handleSearch()]; [searchInput] is the value of the search box, [net]
    what the awaited [fetch] gives. On a string of code units below 256
    [encodeURIComponent] does not throw. *)
Definition handleSearch (searchInput : string) (net : Response)
    (m : DatasetManager) : DatasetManager * list Effect :=
  let searchTerm := Js.trim searchInput in
  if negb (Js.truthy searchTerm) then
    (m, [Alert "Please enter a search keyword"])
  else keywordRequest (Some (Js.encodeURIComponent searchTerm)) net m.

(** The user actions of the page. *)
Inductive Action :=
| OnToggle (datasetId : Z)
| OnDrop (datasetId : Z)
| OnRemove (datasetId : Z)
| OnClearAll
| OnSearch (searchInput : string) (net : Response).

Definition perform (a : Action) (m : DatasetManager) : DatasetManager * list Effect :=
  match a with
  | OnToggle datasetId => toggleDatasetSelection datasetId m
  | OnDrop datasetId => addToDownloadList datasetId m
  | OnRemove datasetId => removeFromDownloadList datasetId m
  | OnClearAll => clearAll m
  | OnSearch searchInput net => handleSearch searchInput net m
  end.

Fixpoint run (actions : list Action) (m : DatasetManager) : DatasetManager * list Effect :=
  match actions with
  | [] => (m, [])
  | a :: rest =>
      let '(m1, e1) := perform a m in
      let '(m2, e2) := run rest m1 in
      (m2, e1 ++ e2)
  end.

(** The ids of the entries of a download list ([undefined] has none). *)
Definition idsOf (l : list (option Dataset)) : list Z :=
  omap (fun d => id <$> d) l.

Definition selectedIds (m : DatasetManager) : list Z := idsOf (downloadDatasets m).

End Script.

(** ** The rate-limited fetcher of the backend

  Time and delays are natural numbers (milliseconds). *)

Module Fetcher.
Import Dom.

Record Config := {
  minDelay : N;
  baseDelay : N;
  maxDelay : N;
  maxRetries : nat
}.

Definition defaultMaxRetries : nat := 3.

Record RateLimiterState := {
  lastCallTimestamp : option N;
  currentBackoffDelay : N;
  consecutiveFailureCount : nat
}.

(** The state of a process that has not called the marketplace yet. *)
Definition initial (cfg : Config) : RateLimiterState :=
  {| lastCallTimestamp := None;
     currentBackoffDelay := baseDelay cfg;
     consecutiveFailureCount := 0 |}.

(** What the marketplace answers to one call. *)
Inductive Reply :=
| Records (records : list MarketplaceRecord)
| Throttled
| TransientFailure.

Definition isFailure (r : Reply) : bool :=
  match r with Records _ => false | _ => true end.

(** The marketplace is external: its answer to the k-th call the process
    issues, and the time that call takes. *)
Record Marketplace := { reply : nat → Reply; latency : nat → N }.

(** The clock and the number of calls issued so far. *)
Record World := { now : N; calls : nat }.

Inductive Event :=
| Suspended (delay : N)
| Issued (time : N)
| Answered (time : N) (ok : bool).

Inductive Result :=
| Ok (records : list MarketplaceRecord)
| RateLimitError.

Record Run := {
  result : Result;
  state : RateLimiterState;
  world : World;
  events : list Event
}.

(** Modelled from the spec: the backoff delay of the fetcher in
    backend/modules/datasets.py, which is not part of the sources at hand:
    "delay = min(baseDelay x 2^consecutiveFailureCount, maxDelay)". *)
Definition backoff (cfg : Config) (failures : nat) : N :=
  N.min (baseDelay cfg * 2 ^ N.of_nat failures) (maxDelay cfg).

(** Modelled from the spec: the minimum spacing of the same fetcher,
    "if elapsed time since RateLimiterState.lastCallTimestamp < configured
    minDelay, the call suspends until minDelay has elapsed". The result is
    how long a call asked for at time [t] is suspended. *)
Definition spacing (cfg : Config) (st : RateLimiterState) (t : N) : N :=
  match lastCallTimestamp st with
  | Some last =>
      if (t - last <? minDelay cfg)%N then (last + minDelay cfg - t)%N else 0%N
  | None => 0%N
  end.

Definition suspend (d : N) (w : World) : World :=
  {| now := now w + d; calls := calls w |}.

Definition suspended (d : N) : list Event :=
  if (d =? 0)%N then [] else [Suspended d].

(** When a call asked for in world [w] is issued, when it is answered, the
    world after the answer, and what the trace shows of the call up to its
    being issued. *)
Definition issuedAt (cfg : Config) (st : RateLimiterState) (w : World) : N :=
  now w + spacing cfg st (now w).

Definition answeredAt (cfg : Config) (mk : Marketplace) (st : RateLimiterState)
    (w : World) : N :=
  issuedAt cfg st w + latency mk (calls w).

Definition afterCall (cfg : Config) (mk : Marketplace) (st : RateLimiterState)
    (w : World) : World :=
  {| now := answeredAt cfg mk st w; calls := S (calls w) |}.

Definition callEvents (cfg : Config) (st : RateLimiterState) (w : World) : list Event :=
  suspended (spacing cfg st (now w)) ++ [Issued (issuedAt cfg st w)].

(** Modelled from the spec: the fetcher's bookkeeping on success, "reset
    consecutiveFailureCount to 0, set currentBackoffDelay to baseDelay,
    record lastCallTimestamp". *)
Definition onSuccess (cfg : Config) (t : N) (st : RateLimiterState) : RateLimiterState :=
  {| lastCallTimestamp := Some t;
     currentBackoffDelay := baseDelay cfg;
     consecutiveFailureCount := 0 |}.

(** Modelled from the spec: the fetcher's bookkeeping on a throttling
    response or transient failure, "increment consecutiveFailureCount,
    compute delay = min(baseDelay x 2^consecutiveFailureCount, maxDelay)";
    the delay is kept in [currentBackoffDelay]. Section 4.1 names the
    recording of [lastCallTimestamp] under success only and does not say
    what a failed call does to it: it is left as it is here. *)
Definition onFailure (cfg : Config) (st : RateLimiterState) : RateLimiterState :=
  let n := S (consecutiveFailureCount st) in
  {| lastCallTimestamp := lastCallTimestamp st;
     currentBackoffDelay := backoff cfg n;
     consecutiveFailureCount := n |}.

(** Modelled from the spec: [fetch(request)] of the rate-limited fetcher
    (backend/modules/datasets.py, not part of the sources at hand), after
    section 4.1. Before the call is issued it is suspended for [spacing];
    a successful answer updates the state with [onSuccess] and returns
    the records; a throttling answer or transient failure updates it with
    [onFailure], and then either the retry count is used up (the README's
    "Max Retries: 3 attempts": [maxRetries] bounds the number of calls made
    in a row without success) and the terminal error is returned, or the
    fetcher suspends for the computed delay and retries. *)
Equations? fetch (cfg : Config) (mk : Marketplace) (st : RateLimiterState) (w : World)
  : Run by wf (maxRetries cfg - consecutiveFailureCount st)%nat lt :=
  fetch cfg mk st w :=
    match reply mk (calls w) with
    | Records rs =>
        {| result := Ok rs;
           state := onSuccess cfg (answeredAt cfg mk st w) st;
           world := afterCall cfg mk st w;
           events := callEvents cfg st w ++ [Answered (answeredAt cfg mk st w) true] |}
    | _ =>
        let st' := onFailure cfg st in
        match le_lt_dec (maxRetries cfg) (consecutiveFailureCount st') with
        | left _ =>
            {| result := RateLimitError;
               state := st';
               world := afterCall cfg mk st w;
               events := callEvents cfg st w ++ [Answered (answeredAt cfg mk st w) false] |}
        | right _ =>
            let d := currentBackoffDelay st' in
            let r := fetch cfg mk st' (suspend d (afterCall cfg mk st w)) in
            {| result := result r;
               state := state r;
               world := world r;
               events := callEvents cfg st w
                         ++ [Answered (answeredAt cfg mk st w) false; Suspended d]
                         ++ events r |}
        end
    end.
Proof. all: simpl in *; lia. Qed.


(** The configuration the README describes (2 seconds between calls, 3
    attempts) with a base delay of 1 second and a maximum of 60, a
    marketplace that answers from a script and then keeps giving the same
    answer, and the world at time 0. *)
Definition sampleConfig : Config :=
  {| minDelay := 2000; baseDelay := 1000; maxDelay := 60000; maxRetries := defaultMaxRetries |}.

Definition scripted (replies : list Reply) (then_ : Reply) (lat : N) : Marketplace :=
  {| reply := fun k => nth k replies then_; latency := fun _ => lat |}.

Definition start : World := {| now := 0; calls := 0 |}.


(** The times at which the calls of a trace were issued. *)
Definition issueTimes (evs : list Event) : list N :=
  omap (fun e => match e with Issued t => Some t | _ => None end) evs.

End Fetcher.

(** ** The result normalizer of the backend *)

Module Normalizer.
Import Dom.

(** Modelled from the spec: the loop of [normalize], which keeps a record
    when its reference has not been seen yet. *)
Fixpoint dedup (seen : gset string) (rawRecords : list MarketplaceRecord)
  : list MarketplaceRecord :=
  match rawRecords with
  | [] => []
  | r :: rest =>
      if decide (reference r ∈ seen) then dedup seen rest
      else r :: dedup ({[reference r]} ∪ seen) rest
  end.

(** Modelled from the spec: [normalize(rawRecords)] of the result
    normalizer (backend, not part of the sources at hand), after section
    4.3: "De-duplicates by reference, preserving first-seen order. Pure
    function, no side effects." *)
Definition normalize (rawRecords : list MarketplaceRecord) : list MarketplaceRecord :=
  dedup ∅ rawRecords.

Definition references (l : list MarketplaceRecord) : list string := map reference l.

(** The first record of [l] whose reference is [ref]. *)
Definition firstWith (ref : string) (l : list MarketplaceRecord) : option MarketplaceRecord :=
  List.find (fun r => String.eqb (reference r) ref) l.

(** A record for examples: its reference is the one-character string of code [n]. *)
Definition sampleRecord (n : nat) : MarketplaceRecord :=
  {| reference := String (ascii_of_nat n) EmptyString;
     title := "Titanic";
     license := "CC0-1.0";
     tags := Some ["tabular"];
     last_updated := "2024-01-01";
     files := [("train.csv", "61194")] |}.

(** The records of [page2] whose reference already occurs in [page1]. *)
Definition overlap (page1 page2 : list MarketplaceRecord) : list MarketplaceRecord :=
  List.filter (fun r => bool_decide (reference r ∈ references page1)) page2.

End Normalizer.

(** ** Escaped strings *)

Module Escaping.

(** The characters [encodeURIComponent] can put out: the unreserved ones
    and the percent sign. *)
Definition plain (c : ascii) : Prop := Js.unreserved c = true ∨ c = "%"%char.

(** Characters that have a meaning of their own in a URL. *)
Definition delimiters : list ascii :=
  ["&"; "="; "#"; "?"; "/"; " "; "+"; ":"; ";"; ","; "@"; "$"]%char.

End Escaping.

(** ** Strings of UTF-16 code units

  The search box can hold any JavaScript string: a sequence of UTF-16
  code units, numbers below 65536, in which a surrogate may stand alone.
  [trim] and [encodeURIComponent] are given here on such sequences, and
  the keyword searches with them; on code units below 256 they agree with
  [Js] and with the handlers of [Upload] and [Script]. *)

Module Utf16.
Import Dom.
Local Open Scope N_scope.

(** A string of code units below 256 as a string of code units. *)
Definition ofString (s : string) : list N := map N_of_ascii (list_ascii_of_string s).

(** White space and line terminators, which [String.prototype.trim]
    strips: TAB, LF, VT, FF, CR, SPACE, NBSP, U+1680, U+2000 to U+200A,
    U+2028, U+2029, U+202F, U+205F, U+3000 and U+FEFF. *)
Definition isWhiteSpace (u : N) : bool :=
  ((9 <=? u) && (u <=? 13)) || (u =? 32) || (u =? 0xA0) || (u =? 0x1680)
  || ((0x2000 <=? u) && (u <=? 0x200A)) || (u =? 0x2028) || (u =? 0x2029)
  || (u =? 0x202F) || (u =? 0x205F) || (u =? 0x3000) || (u =? 0xFEFF).

Fixpoint trimStart (s : list N) : list N :=
  match s with
  | u :: s' => if isWhiteSpace u then trimStart s' else s
  | [] => []
  end.

Fixpoint trimEnd (s : list N) : list N :=
  match s with
  | u :: s' =>
      match trimEnd s' with
      | [] => if isWhiteSpace u then [] else [u]
      | t => u :: t
      end
  | [] => []
  end.

Definition trim (s : list N) : list N := trimEnd (trimStart s).

Definition truthy (s : list N) : bool :=
  match s with [] => false | _ => true end.

(** Surrogates: a leading one (U+D800 to U+DBFF) followed by a trailing
    one (U+DC00 to U+DFFF) stands for a code point above U+FFFF. *)
Definition isLeadingSurrogate (u : N) : bool := (0xD800 <=? u) && (u <=? 0xDBFF).
Definition isTrailingSurrogate (u : N) : bool := (0xDC00 <=? u) && (u <=? 0xDFFF).

Definition codePoint (lead trail : N) : N :=
  (lead - 0xD800) * 0x400 + (trail - 0xDC00) + 0x10000.

(** [String.prototype.isWellFormed]: no surrogate stands alone. *)
Fixpoint isWellFormed (s : list N) : bool :=
  match s with
  | [] => true
  | u :: rest =>
      if isTrailingSurrogate u then false
      else if isLeadingSurrogate u then
        match rest with
        | v :: rest' => isTrailingSurrogate v && isWellFormed rest'
        | [] => false
        end
      else isWellFormed rest
  end.

Definition unreserved (u : N) : bool :=
  ((65 <=? u) && (u <=? 90)) || ((97 <=? u) && (u <=? 122))
  || ((48 <=? u) && (u <=? 57))
  || existsb (N.eqb u) [45; 95; 46; 33; 126; 42; 39; 40; 41].

(** The octets of the UTF-8 encoding of a code point. *)
Definition utf8 (cp : N) : list N :=
  if cp <? 0x80 then [cp]
  else if cp <? 0x800 then [0xC0 + cp / 64; 0x80 + cp mod 64]
  else if cp <? 0x10000 then
    [0xE0 + cp / 4096; 0x80 + (cp / 64) mod 64; 0x80 + cp mod 64]
  else
    [0xF0 + (cp / 262144) mod 8; 0x80 + (cp / 4096) mod 64;
     0x80 + (cp / 64) mod 64; 0x80 + cp mod 64].

Fixpoint escape (octets : list N) : string :=
  match octets with
  | [] => EmptyString
  | o :: rest => Js.percent (N.to_nat o) +:+ escape rest
  end.

(** [encodeURIComponent(s)]: an unreserved code unit is kept; any other
    is read as a code point, with the trailing surrogate that follows it
    when it is a leading one, and replaced by the escaped octets of its
    UTF-8 encoding. A surrogate that stands alone makes the function throw
    a [URIError] ([None]). *)
Fixpoint encodeURIComponent (s : list N) : option string :=
  match s with
  | [] => Some EmptyString
  | u :: rest =>
      if unreserved u then
        (fun q => String (ascii_of_N u) q) <$> encodeURIComponent rest
      else if isTrailingSurrogate u then None
      else if isLeadingSurrogate u then
        match rest with
        | v :: rest' =>
            if isTrailingSurrogate v
            then (fun q => escape (utf8 (codePoint u v)) +:+ q) <$> encodeURIComponent rest'
            else None
        | [] => None
        end
      else (fun q => escape (utf8 u) +:+ q) <$> encodeURIComponent rest
  end.

(** [handleSearchWithKeyword()] of the upload and keyword front end, for
    any value of the search box. *)
Definition handleSearchWithKeyword (searchInput : list N) (net : Response)
    (m : Upload.DatasetManager) : Upload.DatasetManager * list Effect :=
  let searchTerm := trim searchInput in
  if negb (truthy searchTerm) then
    (m, [Alert "Please enter a search keyword"])
  else Upload.keywordRequest (encodeURIComponent searchTerm) net m.

(** [handleSearch()] of script.js, for any value of the search box. *)
Definition handleSearch (searchInput : list N) (net : Response)
    (m : Script.DatasetManager) : Script.DatasetManager * list Effect :=
  let searchTerm := trim searchInput in
  if negb (truthy searchTerm) then
    (m, [Alert "Please enter a search keyword"])
  else Script.keywordRequest (encodeURIComponent searchTerm) net m.

End Utf16.

(** ** The upload and keyword front end: icons, the files panel, drops *)

Module UploadView.
Import Dom Upload.

(** [s.split('.').pop()]: what follows the last dot, the whole string when
    it has no dot. *)
Fixpoint hasDot (s : string) : bool :=
  match s with
  | EmptyString => false
  | String c s' => Ascii.eqb c "." || hasDot s'
  end.

Fixpoint lastSegment (s : string) : string :=
  match s with
  | EmptyString => EmptyString
  | String c s' =>
      if hasDot s' then lastSegment s'
      else if Ascii.eqb c "." then s' else String c s'
  end.

(** The values of the [icons] table, the fallback, and what a lookup finds
    when the key is not in the table but names a property every object
    inherits (a function or an object, which is truthy and so wins over
    the fallback). *)
Inductive Icon :=
| BarChart
| PageFacingUp
| Memo
| ChartIncreasing
| FileFolder
| Inherited (key : string).

Definition objectPrototypeKeys : list string :=
  ["constructor"; "hasOwnProperty"; "isPrototypeOf"; "propertyIsEnumerable";
   "toLocaleString"; "toString"; "valueOf"; "__proto__";
   "__defineGetter__"; "__defineSetter__"; "__lookupGetter__"; "__lookupSetter__"].

(** [getFileIcon(fileName)] *)
Definition getFileIcon (fileName : string) : Icon :=
  let ext := lastSegment (Js.toLowerCase fileName) in
  if String.eqb ext "csv" then BarChart
  else if String.eqb ext "pdf" then PageFacingUp
  else if String.eqb ext "docx" then Memo
  else if String.eqb ext "xlsx" then ChartIncreasing
  else if existsb (String.eqb ext) objectPrototypeKeys then Inherited ext
  else FileFolder.

Definition withSelected (d : option Dataset) (m : DatasetManager) : DatasetManager :=
  {| availableDatasets := availableDatasets m;
     uploadedFiles := uploadedFiles m;
     selectedDataset := d;
     currentMode := currentMode m |}.

Definition doubleQuote : string := String (ascii_of_nat 34) EmptyString.

(** [renderFilesList()]; the rendered list is given by its texts: the
    header, then the name and the size of each file. *)
Definition renderFilesList (m : DatasetManager) : list Effect :=
  match selectedDataset m with
  | None => [SetParagraph "filesList" "no-data" "Click on a dataset to view its files."]
  | Some d =>
      match files d with
      | [] => [SetParagraph "filesList" "no-data" "No files available for this dataset."]
      | fs =>
          [RenderList "filesList"
             (("Files in " +:+ doubleQuote +:+ title d +:+ doubleQuote)
                :: flat_map (fun file => [file.1; file.2]) fs)]
      end
  end.

(** [selectDataset(datasetId)] *)
Definition selectDataset (datasetId : Z) (m : DatasetManager)
  : DatasetManager * list Effect :=
  let m' := withSelected (List.find (fun d => (id d =? datasetId)%Z) (availableDatasets m)) m in
  (m', renderFilesList m').

(** [handleDrop(e)], with the files of [e.dataTransfer]; the changes of the
    drop area's style are left out. *)
Definition handleDrop (files : list File) (m : DatasetManager)
  : DatasetManager * list Effect :=
  handleFileSelect files m.

(** The listener of the file input: a non-empty selection is handled and
    the input is cleared, so that the same file can be chosen again. *)
Definition fileInputChange (files : list File) (m : DatasetManager)
  : DatasetManager * list Effect :=
  if Nat.ltb 0 (length files) then
    let '(m', effects) := handleFileSelect files m in
    (m', effects ++ [SetValue "fileInput" EmptyString])
  else (m, []).

End UploadView.

(** ** script.js: the download of the selection *)

Module Download.
Import Script.

(** What awaiting the POST and then [response.json()] can give: the
    promise rejects, the status is not ok, the body is not JSON or is
    [null] (reading [result.count] throws), or it is a value whose [count]
    and [message] the template of the alert turns into the texts [count]
    and [message] (the text [undefined] for a property that is absent). *)
Inductive Response :=
| NetworkFailure
| NotOk (status : N)
| Malformed
| Body (count : string) (message : string).

Inductive Effect :=
| Alert (message : string)
| PostJson (url : string) (descriptions : list string).

Definition isPost (e : Effect) : bool :=
  match e with PostJson _ _ => true | _ => false end.

(** [downloadDatasets.map(dataset => dataset.description)], [None] when
    reading [description] of an [undefined] entry throws. *)
Fixpoint descriptionsOf (l : list (option Dataset)) : option (list string) :=
  match l with
  | [] => Some []
  | None :: _ => None
  | Some d :: l' =>
      match descriptionsOf l' with
      | None => None
      | Some r => Some (description d :: r)
      end
  end.

Definition newline : string := String (ascii_of_nat 10) EmptyString.

Definition downloadError : Effect := Alert "Error downloading datasets. Please try again.".

(** [handleDownload()]; [net] is what the awaited [fetch] gives. The
    manager is not changed. *)
Definition handleDownload (net : Response) (m : DatasetManager) : list Effect :=
  if Nat.eqb (length (downloadDatasets m)) 0 then
    [Alert "Please select at least one dataset to download."]
  else
    match descriptionsOf (downloadDatasets m) with
    | None => [downloadError]
    | Some descriptions =>
        PostJson (Config.BACKEND_URL +:+ "/download") descriptions
        :: match net with
           | Body count message =>
               [Alert ("Download initiated for " +:+ count +:+ " dataset(s):"
                       +:+ newline +:+ newline +:+ message)]
           | _ => [downloadError]
           end
    end.

(** The datasets with another id than [datasetId]. *)
Definition others (datasetId : Z) (ds : list Dataset) : list Dataset :=
  List.filter (fun d => negb (id d =? datasetId)%Z) ds.

(** A download list in which an [undefined] entry, if there is one, comes
    last. *)
Definition undefinedLast (l : list (option Dataset)) : Prop :=
  ∃ ds, l = map Some ds ∨ l = map Some ds ++ [None].

End Download.

(** ** The third version of the script: uploads, searches and a download
    of files

  [formatFileSize] works on floating-point numbers (logarithms, rounding
  to two decimals); it is a parameter of this part, which does not depend
  on what it gives. *)

Module Combined.
Import Dom.

Record Dataset := {
  id : Z;
  name : string;
  description : string;
  size : option string;
  category : string;
  file : option File
}.

Record DatasetManager := {
  availableDatasets : list Dataset;
  downloadDatasets : list (option Dataset);
  uploadedFiles : list File;
  currentMode : string
}.

Definition constructor : DatasetManager :=
  {| availableDatasets := []; downloadDatasets := [];
     uploadedFiles := []; currentMode := "files" |}.

(** What a handler of this page does: the effects of [Dom], or saving a
    file through a temporary link. *)
Inductive Effect :=
| Page (e : Dom.Effect)
| Save (file : File).

Definition allowedTypes : list string := [".csv"; ".pdf"; ".docx"; ".xlsx"].

(** [isValidFileType(file)] *)
Definition isValidFileType (file : File) : bool :=
  let fileName := Js.toLowerCase (Dom.name file) in
  existsb (fun type => Js.endsWith fileName type) allowedTypes.

Definition withUploads (fs : list File) (m : DatasetManager) : DatasetManager :=
  {| availableDatasets := availableDatasets m;
     downloadDatasets := downloadDatasets m;
     uploadedFiles := fs;
     currentMode := currentMode m |}.

Definition withAvailable (ds : list Dataset) (m : DatasetManager) : DatasetManager :=
  {| availableDatasets := ds;
     downloadDatasets := downloadDatasets m;
     uploadedFiles := uploadedFiles m;
     currentMode := currentMode m |}.

Definition withDownloads (ds : list (option Dataset)) (m : DatasetManager) : DatasetManager :=
  {| availableDatasets := availableDatasets m;
     downloadDatasets := ds;
     uploadedFiles := uploadedFiles m;
     currentMode := currentMode m |}.

(** [renderUploadedFiles()] *)
Definition renderUploadedFiles (m : DatasetManager) : list Dom.Effect :=
  match uploadedFiles m with
  | [] => [SetDisplay "uploadedFiles" "none"]
  | fs => [SetDisplay "uploadedFiles" "block"; RenderList "fileList" (map Dom.name fs)]
  end.

(** [handleFileSelect(files)] *)
Definition handleFileSelect (files : list File) (m : DatasetManager)
  : DatasetManager * list Dom.Effect :=
  let validFiles := List.filter isValidFileType files in
  let invalidFiles := List.filter (fun f => negb (isValidFileType f)) files in
  let alerts :=
    if Nat.ltb 0 (length invalidFiles)
    then [Alert (Upload.unsupportedMessage (Js.join ", " (map Dom.name invalidFiles)))]
    else [] in
  if Nat.ltb 0 (length validFiles) then
    let m' := withUploads (uploadedFiles m ++ validFiles) m in
    (m', alerts ++ renderUploadedFiles m')
  else (m, alerts).

(** [updateDownloadButton()] *)
Definition updateDownloadButton (m : DatasetManager) : list Dom.Effect :=
  [SetDownloadButton (length (downloadDatasets m))].

(** [renderDownloadDatasets()] *)
Definition renderDownloadDatasets (m : DatasetManager) : list Dom.Effect :=
  match downloadDatasets m with
  | [] => [SetParagraph "downloadDatasets" "no-data" "Selected datasets will appear here."]
  | ds =>
      if forallb (fun d => match d with Some _ => true | None => false end) ds
      then [RenderList "downloadDatasets"
              (map (fun d => match d with Some d => name d | None => EmptyString end) ds)]
      else [Uncaught "TypeError"]
  end.

(** [removeFile(index)] *)
Definition removeFile (index : Z) (m : DatasetManager)
  : DatasetManager * list Dom.Effect :=
  let m' := withUploads (Js.splice1 index (uploadedFiles m)) m in
  (m', renderUploadedFiles m'
         ++ Script.andThen (renderDownloadDatasets m') (updateDownloadButton m')).

(** [renderAvailableDatasets()] *)
Definition renderAvailableDatasets (m : DatasetManager) : list Dom.Effect :=
  match availableDatasets m with
  | [] => [SetParagraph "availableDatasets" "no-data"
             "No datasets found matching your search criteria."]
  | ds => [RenderList "availableDatasets" (map description ds)]
  end.

Section FileSizes.
Variable formatFileSize : N → string.

Definition uploadedDataset (f : File) (index : Z) : Dataset :=
  {| id := index + 1;
     name := Dom.name f;
     description := "Uploaded file: " +:+ Dom.name f +:+ " ("
                    +:+ formatFileSize (Dom.size f) +:+ ")";
     size := Some (formatFileSize (Dom.size f));
     category := "Uploaded File";
     file := Some f |}.

(** [processUploadedFiles()] *)
Definition processUploadedFiles (m : DatasetManager) : DatasetManager * list Dom.Effect :=
  let m' := withAvailable (Js.mapi uploadedDataset (uploadedFiles m)) m in
  (m', renderAvailableDatasets m').

End FileSizes.

(** [handleModeChange(mode)] *)
Definition handleModeChange (mode : string) (m : DatasetManager)
  : DatasetManager * list Dom.Effect :=
  ({| availableDatasets := availableDatasets m;
      downloadDatasets := downloadDatasets m;
      uploadedFiles := uploadedFiles m;
      currentMode := mode |},
   if String.eqb mode "files"
   then [SetDisplay "fileUploadArea" "flex"; SetDisplay "searchInputArea" "none"]
   else [SetDisplay "fileUploadArea" "none"; SetDisplay "searchInputArea" "flex"]).

Definition toDataset (category : string) (dataset : MarketplaceRecord) (index : Z) : Dataset :=
  {| id := index + 1;
     name := Dom.title dataset;
     description := Dom.reference dataset;
     size := None;
     category := category;
     file := None |}.

Definition backendError (what : string) : Dom.Effect :=
  SetParagraph "availableDatasets" "error"
    ("Error searching " +:+ what +:+
     ". Please make sure the backend server is running on " +:+ Config.BACKEND_URL).

(** [handleSearchWithFiles()] *)
Definition handleSearchWithFiles (net : Response) (m : DatasetManager)
  : DatasetManager * list Dom.Effect :=
  if Nat.eqb (length (uploadedFiles m)) 0 then
    (m, [Alert "Please upload at least one file before searching for similar datasets."])
  else
    let request :=
      [SetParagraph "availableDatasets" "loading" "Searching for similar datasets...";
       Fetch (POST_FormData (Config.BACKEND_URL +:+ "/search-files") (uploadedFiles m))] in
    match net with
    | Body datasets _ =>
        let m' := withAvailable (Js.mapi (toDataset "Similar Dataset") datasets) m in
        (m', request ++ renderAvailableDatasets m')
    | _ => (m, request ++ [backendError "for similar datasets"])
    end.

(** [handleSearchWithKeyword()]. On a string of code units below 256
    [encodeURIComponent] does not throw. *)
Definition handleSearchWithKeyword (searchInput : string) (net : Response)
    (m : DatasetManager) : DatasetManager * list Dom.Effect :=
  let searchTerm := Js.trim searchInput in
  if negb (Js.truthy searchTerm) then
    (m, [Alert "Please enter a search keyword"])
  else
    let request :=
      [SetParagraph "availableDatasets" "loading" "Searching datasets...";
       Fetch (GET (Config.BACKEND_URL +:+ "/search-keyword?keyword="
                     +:+ Js.encodeURIComponent searchTerm))] in
    match net with
    | Body datasets _ =>
        let m' := withAvailable (Js.mapi (toDataset "Search Result") datasets) m in
        (m', request ++ renderAvailableDatasets m')
    | _ => (m, request ++ [backendError "datasets"])
    end.

(** [handleSearch()] *)
Definition handleSearch (searchInput : string) (net : Response)
    (m : DatasetManager) : DatasetManager * list Dom.Effect :=
  if String.eqb (currentMode m) "files"
  then handleSearchWithFiles net m
  else handleSearchWithKeyword searchInput net m.

(** [availableDatasets.find(d => d.id === datasetId)] *)
Definition findAvailable (datasetId : Z) (m : DatasetManager) : option Dataset :=
  List.find (fun d => (id d =? datasetId)%Z) (availableDatasets m).

(** [findIndex(d => d.id === datasetId)] on the download list; [None]
    when reading [d.id] of an [undefined] entry throws, [Some None] for
    -1. *)
Fixpoint findIndex (datasetId : Z) (l : list (option Dataset)) : option (option nat) :=
  match l with
  | [] => Some None
  | None :: _ => None
  | Some d :: l' =>
      if (id d =? datasetId)%Z then Some (Some 0%nat)
      else match findIndex datasetId l' with
           | Some (Some i) => Some (Some (S i))
           | r => r
           end
  end.

(** [downloadDatasets.filter(d => d.id !== datasetId)], [None] when the
    callback throws. *)
Fixpoint filterOut (datasetId : Z) (l : list (option Dataset))
  : option (list (option Dataset)) :=
  match l with
  | [] => Some []
  | None :: _ => None
  | Some d :: l' =>
      match filterOut datasetId l' with
      | None => None
      | Some r => Some (if (id d =? datasetId)%Z then r else Some d :: r)
      end
  end.

(** [toggleDatasetSelection(datasetId)] *)
Definition toggleDatasetSelection (datasetId : Z) (m : DatasetManager)
  : DatasetManager * list Dom.Effect :=
  let dataset := findAvailable datasetId m in
  match findIndex datasetId (downloadDatasets m) with
  | None => (m, [Uncaught "TypeError"])
  | Some None =>
      let m' := withDownloads (downloadDatasets m ++ [dataset]) m in
      (m', Script.andThen (renderDownloadDatasets m') (updateDownloadButton m'))
  | Some (Some existingIndex) =>
      let m' := withDownloads (delete existingIndex (downloadDatasets m)) m in
      (m', Script.andThen (renderDownloadDatasets m') (updateDownloadButton m'))
  end.

(** [addToDownloadList(datasetId)] *)
Definition addToDownloadList (datasetId : Z) (m : DatasetManager)
  : DatasetManager * list Dom.Effect :=
  match findAvailable datasetId m with
  | None => (m, [])
  | Some dataset =>
      match findIndex datasetId (downloadDatasets m) with
      | None => (m, [Uncaught "TypeError"])
      | Some None =>
          let m' := withDownloads (downloadDatasets m ++ [Some dataset]) m in
          (m', SetChecked datasetId true
                 :: Script.andThen (renderDownloadDatasets m') (updateDownloadButton m'))
      | Some (Some _) =>
          (m, Script.andThen (renderDownloadDatasets m) (updateDownloadButton m))
      end
  end.

(** [removeFromDownloadList(datasetId)] *)
Definition removeFromDownloadList (datasetId : Z) (m : DatasetManager)
  : DatasetManager * list Dom.Effect :=
  match filterOut datasetId (downloadDatasets m) with
  | None => (m, [Uncaught "TypeError"])
  | Some ds =>
      let m' := withDownloads ds m in
      (m', SetChecked datasetId false
             :: Script.andThen (renderDownloadDatasets m') (updateDownloadButton m'))
  end.

(** [clearAll()] *)
Definition clearAll (m : DatasetManager) : DatasetManager * list Dom.Effect :=
  let m' := {| availableDatasets := []; downloadDatasets := [];
               uploadedFiles := []; currentMode := currentMode m |} in
  (m', [SetParagraph "availableDatasets" "no-data"
          "No search results yet. Upload files or enter a keyword to search for datasets.";
        SetParagraph "downloadDatasets" "no-data" "Selected datasets will appear here.";
        SetDisplay "uploadedFiles" "none";
        SetValue "fileInput" EmptyString;
        SetValue "searchInput" EmptyString] ++ updateDownloadButton m').

(** [downloadDatasets.map(dataset => dataset.file).filter(file => file)],
    [None] when reading [file] of an [undefined] entry throws. *)
Fixpoint selectedFiles (l : list (option Dataset)) : option (list File) :=
  match l with
  | [] => Some []
  | None :: _ => None
  | Some d :: l' =>
      match selectedFiles l' with
      | None => None
      | Some r => Some (match file d with Some f => f :: r | None => r end)
      end
  end.

(** [handleDownload()]; the manager is not changed. *)
Definition handleDownload (m : DatasetManager) : list Effect :=
  if Nat.eqb (length (downloadDatasets m)) 0 then
    [Page (Alert "Please select at least one file to download.")]
  else
    match selectedFiles (downloadDatasets m) with
    | None => [Page (Alert "Error downloading files. Please try again.")]
    | Some [] => [Page (Alert "No files available for download.")]
    | Some fs =>
        map Save fs
        ++ [Page (Alert ("Downloaded " +:+ pretty (length fs) +:+ " file(s) successfully!"))]
    end.

(** The methods of the manager as actions. All but [processUploadedFiles]
    are wired to the page. *)
Inductive Action :=
| OnFileSelect (files : list File)
| OnRemoveFile (index : Z)
| OnModeChange (mode : string)
| OnSearch (searchInput : string) (net : Response)
| OnToggle (datasetId : Z)
| OnDrop (datasetId : Z)
| OnRemove (datasetId : Z)
| OnClearAll
| OnDownload
| CallProcessUploadedFiles.

Definition wired (a : Action) : bool :=
  match a with CallProcessUploadedFiles => false | _ => true end.

Definition page (r : DatasetManager * list Dom.Effect) : DatasetManager * list Effect :=
  (r.1, map Page r.2).

Section Running.
Variable formatFileSize : N → string.

Definition perform (a : Action) (m : DatasetManager) : DatasetManager * list Effect :=
  match a with
  | OnFileSelect files => page (handleFileSelect files m)
  | OnRemoveFile index => page (removeFile index m)
  | OnModeChange mode => page (handleModeChange mode m)
  | OnSearch searchInput net => page (handleSearch searchInput net m)
  | OnToggle datasetId => page (toggleDatasetSelection datasetId m)
  | OnDrop datasetId => page (addToDownloadList datasetId m)
  | OnRemove datasetId => page (removeFromDownloadList datasetId m)
  | OnClearAll => page (clearAll m)
  | OnDownload => (m, handleDownload m)
  | CallProcessUploadedFiles => page (processUploadedFiles formatFileSize m)
  end.

Fixpoint run (actions : list Action) (m : DatasetManager) : DatasetManager * list Effect :=
  match actions with
  | [] => (m, [])
  | a :: rest =>
      let '(m1, e1) := perform a m in
      let '(m2, e2) := run rest m1 in
      (m2, e1 ++ e2)
  end.

End Running.

(** The files the datasets of a list carry. *)
Definition filesOf (ds : list Dataset) : list File := omap file ds.

Definition filesOfSelection (l : list (option Dataset)) : list File :=
  omap (fun d => d ≫= file) l.

Definition saved (effects : list Effect) : list File :=
  omap (fun e => match e with Save f => Some f | _ => None end) effects.

(** [P] holds of every uploaded file and of every file a dataset carries,
    among the results and in the selection. *)
Definition carried (P : File → Prop) (m : DatasetManager) : Prop :=
  Forall P (uploadedFiles m)
  ∧ Forall P (filesOf (availableDatasets m))
  ∧ Forall P (filesOfSelection (downloadDatasets m)).

(** No dataset carries a file, among the results or in the selection. *)
Definition fileless (m : DatasetManager) : Prop :=
  filesOf (availableDatasets m) = [] ∧ filesOfSelection (downloadDatasets m) = [].

Definition idsOf (l : list (option Dataset)) : list Z :=
  omap (fun d => id <$> d) l.

End Combined.

(** * Properties *)

(** ** JavaScript built-ins *)

Module JsFacts.
Import Js.

Lemma trimEnd_blank s : blank s = true → trimEnd s = EmptyString.
Proof.
  induction s as [|c s IH]; simpl; [done|].
  unfold blank in *; simpl. intros [Hc Hs]%andb_prop.
  by rewrite IH, Hc.
Qed.

Lemma trimStart_blank s : blank s = true → trimStart s = EmptyString.
Proof.
  induction s as [|c s IH]; simpl; [done|].
  unfold blank in *; simpl. intros [Hc Hs]%andb_prop.
  rewrite Hc. auto.
Qed.

Lemma trim_blank s : blank s = true → trim s = EmptyString.
Proof. intros H. unfold trim. by rewrite trimStart_blank. Qed.

Lemma trimEnd_empty s : trimEnd s = EmptyString → blank s = true.
Proof.
  induction s as [|c s IH]; simpl; [done|].
  destruct (trimEnd s) eqn:E; [|done].
  destruct (isWhiteSpace c) eqn:Hc; [|done].
  intros _. unfold blank in *; simpl. rewrite Hc. simpl. auto.
Qed.

Lemma trimStart_blank_iff s : blank (trimStart s) = blank s.
Proof.
  induction s as [|c s IH]; simpl; [done|].
  destruct (isWhiteSpace c) eqn:Hc.
  - rewrite IH. unfold blank; simpl. by rewrite Hc.
  - done.
Qed.

(** [trim] gives the empty string exactly on blank strings. *)
Lemma trim_empty_iff s : trim s = EmptyString ↔ blank s = true.
Proof.
  split; [|apply trim_blank].
  intros H. rewrite <- trimStart_blank_iff. by apply trimEnd_empty.
Qed.

Lemma truthy_false s : truthy s = false ↔ s = EmptyString.
Proof. destruct s; simpl; split; congruence. Qed.

Lemma Forall_of_sublist {A} (P : A → Prop) l1 l2 :
  sublist l1 l2 → Forall P l2 → Forall P l1.
Proof.
  rewrite !Forall_forall. intros Hsub H x Hx. eapply H, elem_of_sublist; eauto.
Qed.

Lemma splice1_sublist {A} (start : Z) (l : list A) : sublist (splice1 start l) l.
Proof. apply sublist_delete. Qed.

Lemma append_nil_r s : s +:+ EmptyString = s.
Proof.
  induction s as [|c s IH]; [done|].
  change (String c (s +:+ EmptyString) = String c s). by rewrite IH.
Qed.

Lemma append_assoc s1 s2 s3 : (s1 +:+ s2) +:+ s3 = s1 +:+ (s2 +:+ s3).
Proof.
  induction s1 as [|c s1 IH]; [done|].
  change (String c ((s1 +:+ s2) +:+ s3) = String c (s1 +:+ (s2 +:+ s3))).
  by rewrite IH.
Qed.

(** A name that was joined into a list can be read in the result. *)
Lemma join_member sep (x : string) l :
  x ∈ l → ∃ before after, join sep l = before +:+ x +:+ after.
Proof.
  unfold join. induction l as [|y l IH]; intros Hin; [by apply elem_of_nil in Hin|].
  apply elem_of_cons in Hin as [->|Hin].
  - destruct l as [|z l].
    + exists EmptyString, EmptyString.
      change (y = y +:+ EmptyString). by rewrite append_nil_r.
    + exists EmptyString, (sep +:+ String.concat sep (z :: l)). reflexivity.
  - destruct (IH Hin) as (b & a & E).
    destruct l as [|z l]; [by apply elem_of_nil in Hin|].
    exists (y +:+ sep +:+ b), a.
    change (String.concat sep (y :: z :: l)) with (y +:+ sep +:+ String.concat sep (z :: l)).
    rewrite E. by rewrite !append_assoc.
Qed.

End JsFacts.

(** ** The upload and keyword front end *)

Module UploadFacts.
Import Dom Upload.

Lemma isValidFileType_supported file : isValidFileType file = true ↔ supported file.
Proof.
  unfold isValidFileType, supported. rewrite existsb_exists, Exists_exists.
  split; intros (type & Hin & H); exists type; split; auto; by apply list_elem_of_In.
Qed.

Lemma isValidFileType_unsupported file : isValidFileType file = false ↔ ¬ supported file.
Proof.
  rewrite <- isValidFileType_supported. destruct (isValidFileType file); split; congruence.
Qed.

Lemma filter_valid_supported files : Forall supported (List.filter isValidFileType files).
Proof.
  apply Forall_forall. intros f Hf%list_elem_of_In%filter_In.
  apply isValidFileType_supported, Hf.
Qed.

(** What [handleFileSelect] does to the list: the valid files of the
    selection are appended, in order. *)
Lemma handleFileSelect_uploadedFiles files m :
  uploadedFiles (handleFileSelect files m).1
  = uploadedFiles m ++ List.filter isValidFileType files.
Proof.
  unfold handleFileSelect.
  destruct (List.filter isValidFileType files) as [|f fs] eqn:E; simpl.
  - by rewrite app_nil_r.
  - done.
Qed.

Lemma renderUploadedFiles_no_fetch m : Forall (fun e => isFetch e = false) (renderUploadedFiles m).
Proof. unfold renderUploadedFiles. destruct (uploadedFiles m); repeat constructor. Qed.

Lemma handleFileSelect_no_fetch files m :
  Forall (fun e => isFetch e = false) (handleFileSelect files m).2.
Proof.
  unfold handleFileSelect.
  destruct (Nat.ltb 0 (length (List.filter isValidFileType files)));
    destruct (Nat.ltb 0 (length (List.filter (fun f => negb (isValidFileType f)) files)));
    simpl; repeat constructor; apply renderUploadedFiles_no_fetch.
Qed.

(** Rendering the results inside the [try] block: the list, or what the
    [catch] block does when a dataset has no tags. *)
Lemma tryCatch_render m handler :
  tryCatch (renderAvailableDatasets m) handler
  = match availableDatasets m with
    | [] => [SetParagraph "availableDatasets" "no-data"
               "No datasets found matching your search criteria."]
    | ds => if forallb tagged ds
            then [RenderList "availableDatasets" (map reference ds)]
            else handler
    end.
Proof.
  unfold tryCatch, renderAvailableDatasets.
  destruct (availableDatasets m) as [|d ds]; [done|].
  by destruct (forallb tagged (d :: ds)).
Qed.

Lemma tryCatch_render_no_fetch m what :
  Forall (fun e => isFetch e = false)
         (tryCatch (renderAvailableDatasets m) [backendError what]).
Proof.
  rewrite tryCatch_render. unfold backendError.
  repeat case_match; repeat (apply Forall_cons; split; [done|]); by apply Forall_nil.
Qed.

Lemma handleSearch_uploadedFiles searchInput net m :
  uploadedFiles (handleSearch searchInput net m).1 = uploadedFiles m.
Proof.
  unfold handleSearch, handleSearchWithFiles, handleSearchWithKeyword, keywordRequest.
  repeat case_match; reflexivity.
Qed.

(** Every request of [handleSearch] that carries files carries the
    uploaded ones. *)
Lemma handleSearch_sentFiles searchInput net m :
  Forall (fun e => sentFiles e = [] ∨ sentFiles e = uploadedFiles m)
         (handleSearch searchInput net m).2.
Proof.
  unfold handleSearch, handleSearchWithFiles, handleSearchWithKeyword, keywordRequest.
  destruct (String.eqb (currentMode m) "files"),
    (Nat.eqb (length (uploadedFiles m)) 0), (negb (Js.truthy (Js.trim searchInput))), net;
    simpl; rewrite ?tryCatch_render; unfold backendError;
    repeat case_match; simpl;
    repeat (apply Forall_cons; split; [simpl; auto|]); by apply Forall_nil.
Qed.

Lemma perform_supported a m :
  Forall supported (uploadedFiles m) → Forall supported (uploadedFiles (perform a m).1).
Proof.
  intros Hinv. destruct a as [files|index| |mode|searchInput net]; simpl.
  - rewrite handleFileSelect_uploadedFiles. apply Forall_app. split; [done|].
    apply filter_valid_supported.
  - eapply JsFacts.Forall_of_sublist; [apply JsFacts.splice1_sublist | done].
  - constructor.
  - done.
  - by rewrite handleSearch_uploadedFiles.
Qed.

Lemma perform_sentFiles a m :
  Forall supported (uploadedFiles m) →
  Forall (fun e => Forall supported (sentFiles e)) (perform a m).2.
Proof.
  intros Hinv. destruct a as [files|index| |mode|searchInput net]; simpl.
  - eapply Forall_impl; [apply handleFileSelect_no_fetch|].
    intros [] ?; simpl in *; by try constructor.
  - unfold renderUploadedFiles. case_match; repeat constructor.
  - repeat constructor.
  - case_match; repeat constructor.
  - eapply Forall_impl; [apply handleSearch_sentFiles|].
    intros e [-> | ->]; [constructor | done].
Qed.

(** Whatever the user does, the manager sends supported files only. *)
Lemma run_supported actions m :
  Forall supported (uploadedFiles m) →
  Forall supported (uploadedFiles (run actions m).1)
  ∧ Forall (fun e => Forall supported (sentFiles e)) (run actions m).2.
Proof.
  revert m. induction actions as [|a rest IH]; intros m Hinv; simpl.
  - split; [done | constructor].
  - pose proof (perform_supported a m Hinv) as H1.
    pose proof (perform_sentFiles a m Hinv) as H2.
    destruct (perform a m) as [m1 e1]. simpl in *.
    destruct (IH m1 H1) as [H3 H4].
    destruct (run rest m1) as [m2 e2]. simpl in *.
    split; [done | by apply Forall_app].
Qed.

Lemma reachable_supported history :
  Forall supported (uploadedFiles (run history constructor).1).
Proof. apply run_supported. constructor. Qed.

(** The keyword search goes to the backend exactly when the trimmed term is
    not empty, and then with one GET on [/search-keyword]. *)
Lemma handleSearchWithKeyword_request searchInput net m :
  Js.blank searchInput = false →
  ∃ rest,
    (handleSearchWithKeyword searchInput net m).2
    = SetParagraph "availableDatasets" "loading" "Searching datasets..."
      :: Fetch (GET (Config.BACKEND_URL +:+ "/search-keyword?keyword="
                       +:+ Js.encodeURIComponent (Js.trim searchInput)))
      :: rest
    ∧ Forall (fun e => isFetch e = false) rest.
Proof.
  intros Hb. unfold handleSearchWithKeyword, keywordRequest.
  destruct (Js.truthy (Js.trim searchInput)) eqn:E.
  - simpl. destruct net; eexists; (split; [reflexivity|]);
      try apply tryCatch_render_no_fetch;
      unfold backendError; repeat (apply Forall_cons; split; [done|]); by apply Forall_nil.
  - apply JsFacts.truthy_false, JsFacts.trim_empty_iff in E. congruence.
Qed.

(** A well-formed answer replaces the search results, in the order of the
    answer, numbered from 1. *)
Lemma handleSearchWithKeyword_results searchInput datasets message m :
  Js.blank searchInput = false →
  availableDatasets (handleSearchWithKeyword searchInput (Body datasets message) m).1
  = Js.mapi (toDataset "Search Result") datasets.
Proof.
  intros Hb. unfold handleSearchWithKeyword.
  destruct (Js.truthy (Js.trim searchInput)) eqn:E; [done|].
  apply JsFacts.truthy_false, JsFacts.trim_empty_iff in E. congruence.
Qed.

(** C6. A search with an empty or white-space-only term in keyword mode, or
    with no uploaded file in file mode, is turned down with an alert: the
    alert is all the handler does, the manager is left as it was and no
    request goes to the backend. *)
Theorem empty_search_rejected (searchInput : string) (net : Response) (m : DatasetManager) :
  (currentMode m = "files" ∧ uploadedFiles m = [])
  ∨ (currentMode m ≠ "files" ∧ Js.blank searchInput = true) →
  (∃ message, handleSearch searchInput net m = (m, [Alert message]))
  ∧ Forall (fun e => isFetch e = false) (handleSearch searchInput net m).2.
Proof.
  intros H.
  assert (∃ message, handleSearch searchInput net m = (m, [Alert message])) as [msg E].
  { unfold handleSearch. destruct H as [[Hmode Hfiles] | [Hmode Hblank]].
    - rewrite Hmode. simpl. unfold handleSearchWithFiles. rewrite Hfiles. simpl. eauto.
    - apply String.eqb_neq in Hmode. rewrite Hmode.
      unfold handleSearchWithKeyword. rewrite (JsFacts.trim_blank _ Hblank). simpl. eauto. }
  split; [eauto|]. rewrite E. simpl. by repeat constructor.
Qed.

Lemma empty_search_rejected_witness :
  (∃ message, handleSearch "   " NetworkFailure (handleModeChange "keyword" constructor).1
              = ((handleModeChange "keyword" constructor).1, [Alert message]))
  ∧ Forall (fun e => isFetch e = false)
      (handleSearch "   " NetworkFailure (handleModeChange "keyword" constructor).1).2.
Proof.
  apply (empty_search_rejected "   " NetworkFailure (handleModeChange "keyword" constructor).1).
  right. split; [simpl; discriminate | reflexivity].
Defined.

(** C7. A selected file whose name does not end in a supported extension
    is turned down where it is selected: the alert lists the names of all
    the offending files of the selection, this one among them; the file
    does not enter [uploadedFiles]; selecting files sends nothing; and no
    later request carries the file, whatever the user does next. *)
Theorem unsupported_file_rejected
    (history : list Action) (files : list File) (file : File) (later : list Action) :
  file ∈ files →
  ¬ supported file →
  let m := (run history constructor).1 in
  let invalidNames := map name (List.filter (fun f => negb (isValidFileType f)) files) in
  Alert (unsupportedMessage (Js.join ", " invalidNames)) ∈ (handleFileSelect files m).2
  ∧ name file ∈ invalidNames
  ∧ (∃ before after,
       unsupportedMessage (Js.join ", " invalidNames) = (before +:+ name file +:+ after))
  ∧ (file ∉ uploadedFiles (handleFileSelect files m).1)
  ∧ Forall (fun e => isFetch e = false) (handleFileSelect files m).2
  ∧ Forall (fun e => file ∉ sentFiles e) (run later (handleFileSelect files m).1).2.
Proof.
  intros Hin Hbad m invalidNames.
  assert (Forall supported (uploadedFiles m)) as Hinv by apply reachable_supported.
  assert (Forall supported (uploadedFiles (handleFileSelect files m).1)) as Hinv'.
  { apply (perform_supported (OnFileSelect files) m Hinv). }
  assert (name file ∈ invalidNames) as Hname.
  { apply list_elem_of_fmap. exists file. split; [done|].
    apply list_elem_of_In, filter_In. split; [by apply list_elem_of_In|].
    apply isValidFileType_unsupported in Hbad. by rewrite Hbad. }
  repeat split.
  - unfold handleFileSelect. fold invalidNames.
    destruct (List.filter (fun f => negb (isValidFileType f)) files) as [|x xs] eqn:E.
    { subst invalidNames. by apply elem_of_nil in Hname. }
    simpl length. change (Nat.ltb 0 (S (length xs))) with true.
    case_match; simpl; apply elem_of_cons; by left.
  - done.
  - destruct (JsFacts.join_member ", " _ _ Hname) as (b & a & E).
    unfold unsupportedMessage. rewrite E.
    exists ("The following files are not supported: " +:+ b). eexists.
    rewrite !JsFacts.append_assoc. reflexivity.
  - intros Hmem. apply Hbad. eapply Forall_forall in Hinv'; eauto.
  - apply handleFileSelect_no_fetch.
  - destruct (run_supported later _ Hinv') as [_ Hsent].
    eapply Forall_impl; [exact Hsent|]. intros e He Hmem.
    apply Hbad. eapply Forall_forall in He; eauto.
Qed.

Lemma unsupported_file_rejected_witness :
  let txt := {| name := "notes.txt"; type := "text/plain"; size := 12 |} in
  Alert (unsupportedMessage "notes.txt") ∈ (handleFileSelect [txt] constructor).2
  ∧ (txt ∉ uploadedFiles (handleFileSelect [txt] constructor).1)
  ∧ Forall (fun e => isFetch e = false) (handleFileSelect [txt] constructor).2.
Proof.
  intros txt.
  assert (txt ∈ [txt]) as Hin by (apply list_elem_of_In; simpl; auto).
  assert (¬ supported txt) as Hbad by (apply (bool_decide_unpack _); vm_compute; exact I).
  destruct (unsupported_file_rejected [] [txt] txt [] Hin Hbad) as (H1 & _ & _ & H4 & H5 & _).
  exact (conj H1 (conj H4 H5)).
Defined.

(** C9. Every operation of the manager keeps [uploadedFiles] made of files
    whose name ends, whatever the case of its letters, in .csv, .pdf, .docx
    or .xlsx: [handleFileSelect], [removeFile] and [clearAll], which change
    the list, and the other handlers, which do not. A file with another
    extension is not in the list afterwards. *)
Theorem uploadedFiles_supported (a : Action) (m : DatasetManager) :
  Forall supported (uploadedFiles m) →
  Forall supported (uploadedFiles (perform a m).1)
  ∧ ∀ file, ¬ supported file → file ∉ uploadedFiles (perform a m).1.
Proof.
  intros Hinv. pose proof (perform_supported a m Hinv) as H.
  split; [done|]. intros file Hbad Hmem. apply Hbad.
  eapply Forall_forall in H; eauto.
Qed.

Lemma uploadedFiles_supported_witness :
  let csv := {| name := "Sales.CSV"; type := "text/csv"; size := 2048 |} in
  let txt := {| name := "notes.txt"; type := "text/plain"; size := 12 |} in
  Forall supported (uploadedFiles (perform (OnFileSelect [csv; txt]) constructor).1)
  ∧ ∀ file, ¬ supported file →
            file ∉ uploadedFiles (perform (OnFileSelect [csv; txt]) constructor).1.
Proof.
  intros csv txt.
  apply (uploadedFiles_supported (OnFileSelect [csv; txt]) constructor).
  simpl. constructor.
Defined.

(** The list starts empty, so the property holds of every list the manager
    can reach. *)
Lemma uploadedFiles_always_supported history file :
  file ∈ uploadedFiles (run history constructor).1 → isValidFileType file = true.
Proof.
  intros Hmem. apply isValidFileType_supported.
  pose proof (reachable_supported history) as H.
  eapply Forall_forall in H; eauto.
Qed.

Example select_mixed :
  let csv := {| name := "Sales.CSV"; type := "text/csv"; size := 2048 |} in
  let txt := {| name := "notes.txt"; type := "text/plain"; size := 12 |} in
  handleFileSelect [csv; txt] constructor
  = ({| availableDatasets := []; uploadedFiles := [csv];
        selectedDataset := None; currentMode := "files" |},
     [Alert (unsupportedMessage "notes.txt");
      SetDisplay "uploadedFiles" "block"; RenderList "fileList" ["Sales.CSV"]]).
Proof. reflexivity. Qed.

Example removeFile_examples :
  let a := {| name := "a.csv"; type := "text/csv"; size := 1 |} in
  let b := {| name := "b.pdf"; type := "application/pdf"; size := 2 |} in
  let m := (handleFileSelect [a; b] constructor).1 in
  uploadedFiles (removeFile 0 m).1 = [b]
  ∧ uploadedFiles (removeFile 7 m).1 = [a; b]
  ∧ uploadedFiles (removeFile (-1) m).1 = [a].
Proof. repeat split. Qed.

End UploadFacts.

(** ** script.js *)

Module ScriptFacts.
Import Dom Script.

Lemma idsOf_app l1 l2 : idsOf (l1 ++ l2) = idsOf l1 ++ idsOf l2.
Proof. unfold idsOf. apply omap_app. Qed.

Lemma idsOf_sublist l1 l2 : sublist l1 l2 → sublist (idsOf l1) (idsOf l2).
Proof.
  induction 1 as [|x l1 l2 _ IH|x l1 l2 _ IH]; simpl.
  - constructor.
  - destruct x as [d|]; simpl; [by constructor | done].
  - destruct x as [d|]; simpl; [by constructor | done].
Qed.

Lemma findAvailable_id datasetId m d : findAvailable datasetId m = Some d → id d = datasetId.
Proof.
  unfold findAvailable. intros [_ H]%find_some. by apply Z.eqb_eq in H.
Qed.

(** [findIndex] answers -1 only when no entry has the id. *)
Lemma findIndex_Minus1 datasetId l : findIndex datasetId l = Minus1 → datasetId ∉ idsOf l.
Proof.
  induction l as [|[d|] l IH]; simpl; intros H.
  - apply not_elem_of_nil.
  - destruct (id d =? datasetId)%Z eqn:E; [done|].
    apply Z.eqb_neq in E. destruct (findIndex datasetId l); try done.
    apply not_elem_of_cons. split; [congruence | by apply IH].
  - done.
Qed.

(** An index it answers is the position of the first entry with the id,
    and no [undefined] entry stands before it. *)
Lemma findIndex_Index datasetId l i :
  findIndex datasetId l = Index i →
  ∃ d, l !! i = Some (Some d) ∧ id d = datasetId ∧ datasetId ∉ idsOf (take i l).
Proof.
  revert i. induction l as [|[d|] l IH]; simpl; intros i H; try done.
  destruct (id d =? datasetId)%Z eqn:E.
  - injection H as <-. apply Z.eqb_eq in E. exists d. simpl.
    repeat split; [done | apply not_elem_of_nil].
  - apply Z.eqb_neq in E. destruct (findIndex datasetId l) as [j| |] eqn:F; try done.
    injection H as <-. destruct (IH j eq_refl) as (d' & Hl & Hid & Hpre).
    exists d'. simpl. repeat split; [done..|].
    apply not_elem_of_cons. split; [congruence | done].
Qed.

(** When the id is selected, [findIndex] finds it or throws on the way. *)
Lemma findIndex_selected datasetId l :
  datasetId ∈ idsOf l → findIndex datasetId l ≠ Minus1.
Proof. intros Hin H. by apply findIndex_Minus1 in H. Qed.

Lemma filterOut_ids datasetId l r :
  filterOut datasetId l = Some r →
  sublist r l ∧ datasetId ∉ idsOf r.
Proof.
  revert r. induction l as [|[d|] l IH]; simpl; intros r H.
  - injection H as <-. split; [constructor | apply not_elem_of_nil].
  - destruct (filterOut datasetId l) as [r'|]; [|done].
    destruct (IH r' eq_refl) as [Hs Hn]. injection H as <-.
    destruct (id d =? datasetId)%Z eqn:E.
    + split; [by constructor | done].
    + apply Z.eqb_neq in E. split; [by constructor|].
      simpl. apply not_elem_of_cons. split; [congruence | done].
  - done.
Qed.

Lemma NoDup_delete_ids i l : NoDup (idsOf l) → NoDup (idsOf (delete i l)).
Proof.
  intros H. eapply sublist_NoDup; [exact H|]. apply idsOf_sublist, sublist_delete.
Qed.

Lemma toggle_distinct datasetId m :
  NoDup (selectedIds m) → NoDup (selectedIds (toggleDatasetSelection datasetId m).1).
Proof.
  unfold toggleDatasetSelection, selectedIds. intros H.
  destruct (findIndex datasetId (downloadDatasets m)) as [i| |] eqn:F; simpl.
  - by apply NoDup_delete_ids.
  - rewrite idsOf_app. apply findIndex_Minus1 in F.
    destruct (findAvailable datasetId m) as [d|] eqn:A; simpl.
    + apply findAvailable_id in A. rewrite A.
      apply NoDup_app. repeat split; [done | | apply NoDup_singleton].
      intros x Hx ->%list_elem_of_singleton. done.
    + by rewrite app_nil_r.
  - done.
Qed.

Lemma add_distinct datasetId m :
  NoDup (selectedIds m) → NoDup (selectedIds (addToDownloadList datasetId m).1).
Proof.
  unfold addToDownloadList, selectedIds. intros H.
  destruct (findAvailable datasetId m) as [d|] eqn:A; [|done].
  destruct (findIndex datasetId (downloadDatasets m)) as [i| |] eqn:F; simpl; try done.
  rewrite idsOf_app. apply findIndex_Minus1 in F. apply findAvailable_id in A.
  simpl. rewrite A. apply NoDup_app. repeat split; [done | | apply NoDup_singleton].
  intros x Hx ->%list_elem_of_singleton. done.
Qed.

Lemma remove_distinct datasetId m :
  NoDup (selectedIds m) → NoDup (selectedIds (removeFromDownloadList datasetId m).1).
Proof.
  unfold removeFromDownloadList, selectedIds. intros H.
  destruct (filterOut datasetId (downloadDatasets m)) as [r|] eqn:F; simpl; [|done].
  apply filterOut_ids in F as [Hs _].
  eapply sublist_NoDup; [exact H | by apply idsOf_sublist].
Qed.

Lemma handleSearch_downloads searchInput net m :
  downloadDatasets (handleSearch searchInput net m).1 = downloadDatasets m.
Proof. unfold handleSearch, keywordRequest. repeat case_match; reflexivity. Qed.

Lemma perform_distinct a m :
  NoDup (selectedIds m) → NoDup (selectedIds (perform a m).1).
Proof.
  intros H. destruct a; simpl.
  - by apply toggle_distinct.
  - by apply add_distinct.
  - by apply remove_distinct.
  - constructor.
  - unfold selectedIds. by rewrite handleSearch_downloads.
Qed.

(** The selection starts empty, so its ids are distinct in every state the
    page can reach. *)
Lemma reachable_distinct history : NoDup (selectedIds (run history constructor).1).
Proof.
  assert (∀ m, NoDup (selectedIds m) → NoDup (selectedIds (run history m).1)) as H.
  { induction history as [|a rest IH]; intros m Hm; simpl; [done|].
    pose proof (perform_distinct a m Hm) as H1.
    destruct (perform a m) as [m1 e1]. specialize (IH m1 H1).
    by destruct (run rest m1). }
  apply H. constructor.
Qed.

Lemma add_selected_unchanged datasetId m :
  datasetId ∈ selectedIds m → (addToDownloadList datasetId m).1 = m.
Proof.
  unfold addToDownloadList, selectedIds. intros Hin.
  destruct (findAvailable datasetId m); [|done].
  pose proof (findIndex_selected _ _ Hin).
  by destruct (findIndex datasetId (downloadDatasets m)).
Qed.

Lemma toggle_selected datasetId m :
  NoDup (selectedIds m) → datasetId ∈ selectedIds m →
  (findIndex datasetId (downloadDatasets m) = TypeError
   ∧ toggleDatasetSelection datasetId m = (m, [Uncaught "TypeError"]))
  ∨ ((datasetId ∉ selectedIds (toggleDatasetSelection datasetId m).1)
     ∧ S (length (downloadDatasets (toggleDatasetSelection datasetId m).1))
       = length (downloadDatasets m)).
Proof.
  unfold toggleDatasetSelection, selectedIds. intros Hnd Hin.
  pose proof (findIndex_selected _ _ Hin) as Hne.
  destruct (findIndex datasetId (downloadDatasets m)) as [i| |] eqn:F; [|done|by left].
  right. simpl. destruct (findIndex_Index _ _ _ F) as (d & Hl & Hid & Hpre).
  split.
  - rewrite <- (take_drop_middle _ _ _ Hl) in Hnd.
    rewrite delete_take_drop. rewrite idsOf_app in *. simpl in Hnd. rewrite Hid in Hnd.
    apply NoDup_app in Hnd as (_ & Hdis & Hnd2). apply NoDup_cons in Hnd2 as [Hn _].
    rewrite elem_of_app. intros [?|?]; done.
  - rewrite length_delete; [|by eauto]. apply lookup_lt_Some in Hl. lia.
Qed.

(** C10. Every operation on the download selection keeps the ids of
    [downloadDatasets] distinct: [toggleDatasetSelection],
    [addToDownloadList], [removeFromDownloadList], [clearAll], and the
    search, which leaves the selection alone. Adding an id that is already
    selected leaves the manager unchanged, and toggling it takes its entry
    out of the list (or, when an [undefined] entry stands before it, throws
    before anything is changed); neither adds a second entry. *)
Theorem downloadDatasets_distinct (a : Action) (datasetId : Z) (m : DatasetManager) :
  NoDup (selectedIds m) →
  NoDup (selectedIds (perform a m).1)
  ∧ (datasetId ∈ selectedIds m →
     (addToDownloadList datasetId m).1 = m
     ∧ ((toggleDatasetSelection datasetId m = (m, [Uncaught "TypeError"]))
        ∨ ((datasetId ∉ selectedIds (toggleDatasetSelection datasetId m).1)
           ∧ S (length (downloadDatasets (toggleDatasetSelection datasetId m).1))
             = length (downloadDatasets m)))).
Proof.
  intros Hnd. split; [by apply perform_distinct|].
  intros Hin. split; [by apply add_selected_unchanged|].
  destruct (toggle_selected datasetId m Hnd Hin) as [[_ H]|H]; [by left | by right].
Qed.

Lemma downloadDatasets_distinct_witness :
  let iris := {| id := 1; name := "Iris"; description := "uciml/iris";
                 category := "Kaggle Dataset" |} in
  let m := {| availableDatasets := [iris]; downloadDatasets := [Some iris] |} in
  NoDup (selectedIds (perform (OnDrop 1) m).1)
  ∧ (addToDownloadList 1 m).1 = m
  ∧ downloadDatasets (toggleDatasetSelection 1 m).1 = [].
Proof.
  intros iris m.
  assert (NoDup (selectedIds m)) as Hnd.
  { apply (bool_decide_unpack _). vm_compute. exact I. }
  assert (1%Z ∈ selectedIds m) as Hin.
  { apply (bool_decide_unpack _). vm_compute. exact I. }
  destruct (downloadDatasets_distinct (OnDrop 1) 1 m Hnd) as [H1 H2].
  destruct (H2 Hin) as [H3 _].
  split; [exact H1|]. split; [exact H3 | reflexivity].
Defined.

Example toggle_twice :
  let iris := {| id := 1; name := "Iris"; description := "uciml/iris";
                 category := "Kaggle Dataset" |} in
  let m := {| availableDatasets := [iris]; downloadDatasets := [] |} in
  downloadDatasets (toggleDatasetSelection 1 m).1 = [Some iris]
  ∧ downloadDatasets (toggleDatasetSelection 1 (toggleDatasetSelection 1 m).1).1 = []
  ∧ downloadDatasets (addToDownloadList 1 (addToDownloadList 1 m).1).1 = [Some iris].
Proof. repeat split. Qed.

(** An id that is not among the search results makes [toggleDatasetSelection]
    push [undefined]; the list still has no two entries with the same id. *)
Example toggle_unknown :
  toggleDatasetSelection 9 constructor
  = ({| availableDatasets := []; downloadDatasets := [None] |}, [Uncaught "TypeError"]).
Proof. reflexivity. Qed.

(** The keyword search of script.js sends its GET to [/search], with the
    trimmed and encoded term. *)
Lemma handleSearch_request searchInput net m :
  Js.blank searchInput = false →
  ∃ rest,
    (handleSearch searchInput net m).2
    = SetParagraph "availableDatasets" "loading" "Searching datasets..."
      :: Fetch (GET (Config.BACKEND_URL +:+ "/search?keyword="
                       +:+ Js.encodeURIComponent (Js.trim searchInput)))
      :: rest
    ∧ Forall (fun e => isFetch e = false) rest.
Proof.
  intros Hb. unfold handleSearch, keywordRequest.
  destruct (Js.truthy (Js.trim searchInput)) eqn:E.
  - simpl. destruct net; eexists; (split; [reflexivity|]);
      unfold renderAvailableDatasets, backendError; repeat case_match;
      repeat (apply Forall_cons; split; [done|]); by apply Forall_nil.
  - apply JsFacts.truthy_false, JsFacts.trim_empty_iff in E. congruence.
Qed.

Lemma handleSearch_blank searchInput net m :
  Js.blank searchInput = true →
  handleSearch searchInput net m = (m, [Alert "Please enter a search keyword"]).
Proof.
  intros Hb. unfold handleSearch. by rewrite (JsFacts.trim_blank _ Hb).
Qed.

(** C8, on script.js. Searching for "titanic" there sends
    GET .../search?keyword=titanic, and nothing to /search-keyword, which is
    the path the README documents and the other front end uses. *)
Theorem script_search_path (net : Response) (m : DatasetManager) :
  (∃ rest,
     (handleSearch "titanic" net m).2
     = SetParagraph "availableDatasets" "loading" "Searching datasets..."
       :: Fetch (GET "https://data-lakes-management.onrender.com/search?keyword=titanic")
       :: rest
     ∧ Forall (fun e => isFetch e = false) rest)
  ∧ (Fetch (GET "https://data-lakes-management.onrender.com/search-keyword?keyword=titanic")
       ∉ (handleSearch "titanic" net m).2).
Proof.
  destruct (handleSearch_request "titanic" net m eq_refl) as (rest & E & Hrest).
  split; [exists rest; split; [exact E | exact Hrest]|].
  rewrite E. intros Hin.
  apply elem_of_cons in Hin as [Hin|Hin]; [discriminate|].
  apply elem_of_cons in Hin as [Hin|Hin]; [discriminate|].
  eapply Forall_forall in Hrest; [|exact Hin]. discriminate.
Qed.

End ScriptFacts.

Module UploadSearchFacts.
Import Dom Upload.

(** The same search on the upload and keyword front end goes to
    [/search-keyword]. *)
Example upload_search_path net m :
  ∃ rest,
    (handleSearchWithKeyword "titanic" net m).2
    = SetParagraph "availableDatasets" "loading" "Searching datasets..."
      :: Fetch (GET "https://data-lakes-management.onrender.com/search-keyword?keyword=titanic")
      :: rest.
Proof.
  destruct (UploadFacts.handleSearchWithKeyword_request "titanic" net m eq_refl)
    as (rest & E & _).
  by exists rest.
Qed.

End UploadSearchFacts.

(** ** The rate-limited fetcher *)

Module FetcherFacts.
Import Dom Fetcher.

Local Open Scope N_scope.


Lemma fetch_terminal cfg mk st w :
  isFailure (reply mk (calls w)) = true →
  (maxRetries cfg ≤ S (consecutiveFailureCount st))%nat →
  fetch cfg mk st w
  = {| result := RateLimitError;
       state := onFailure cfg st;
       world := afterCall cfg mk st w;
       events := callEvents cfg st w ++ [Answered (answeredAt cfg mk st w) false] |}.
Proof.
  intros Hf Hle. rewrite fetch_equation_1.
  destruct (reply mk (calls w)); [done|..]; simpl;
    (destruct (le_lt_dec _ _); [done | lia]).
Qed.

Lemma fetch_retry cfg mk st w :
  isFailure (reply mk (calls w)) = true →
  (S (consecutiveFailureCount st) < maxRetries cfg)%nat →
  let d := backoff cfg (S (consecutiveFailureCount st)) in
  let r := fetch cfg mk (onFailure cfg st) (suspend d (afterCall cfg mk st w)) in
  fetch cfg mk st w
  = {| result := result r;
       state := state r;
       world := world r;
       events := callEvents cfg st w
                 ++ [Answered (answeredAt cfg mk st w) false; Suspended d]
                 ++ events r |}.
Proof.
  intros Hf Hlt. rewrite fetch_equation_1.
  destruct (reply mk (calls w)); [done|..]; simpl;
    (destruct (le_lt_dec _ _); [lia | done]).
Qed.

Lemma issueTimes_app evs1 evs2 : issueTimes (evs1 ++ evs2) = issueTimes evs1 ++ issueTimes evs2.
Proof. unfold issueTimes. apply omap_app. Qed.

Lemma issueTimes_suspended d : issueTimes (suspended d) = [].
Proof. unfold suspended. by destruct (d =? 0). Qed.

Lemma issueTimes_callEvents cfg st w : issueTimes (callEvents cfg st w) = [issuedAt cfg st w].
Proof. unfold callEvents. by rewrite issueTimes_app, issueTimes_suspended. Qed.







Example three_attempts :
  events (fetch sampleConfig (scripted [] Throttled 10) (initial sampleConfig) start)
  = [Issued 0; Answered 10 false; Suspended 2000;
     Issued 2010; Answered 2020 false; Suspended 4000;
     Issued 6020; Answered 6030 false].
Proof. vm_compute. reflexivity. Qed.

(** When every call fails, the run ends in the terminal error after as many
    calls as the retry count leaves, and one call at least. *)
Lemma fetch_exhausts cfg mk m : ∀ st w,
  m = (maxRetries cfg - consecutiveFailureCount st)%nat →
  (∀ i, (i < Nat.max 1 m)%nat → isFailure (reply mk (calls w + i)) = true) →
  result (fetch cfg mk st w) = RateLimitError
  ∧ length (issueTimes (events (fetch cfg mk st w))) = Nat.max 1 m
  ∧ calls (world (fetch cfg mk st w)) = (calls w + Nat.max 1 m)%nat.
Proof.
  induction m as [|m IH]; intros st w Hm Hf.
  - assert (isFailure (reply mk (calls w)) = true) as Hf0.
    { specialize (Hf 0%nat). rewrite Nat.add_0_r in Hf. apply Hf. simpl. lia. }
    rewrite fetch_terminal by (done || lia). simpl.
    rewrite issueTimes_app, issueTimes_callEvents. simpl. repeat split; lia.
  - assert (isFailure (reply mk (calls w)) = true) as Hf0.
    { specialize (Hf 0%nat). rewrite Nat.add_0_r in Hf. apply Hf. lia. }
    destruct m as [|m].
    + rewrite fetch_terminal by (done || lia). simpl.
      rewrite issueTimes_app, issueTimes_callEvents. simpl. repeat split; lia.
    + rewrite fetch_retry by (done || lia). cbv zeta. simpl.
      destruct (IH (onFailure cfg st)
                  (suspend (backoff cfg (S (consecutiveFailureCount st)))
                     (afterCall cfg mk st w))) as (Hr & Hl & Hc).
      * simpl. lia.
      * intros i Hi. simpl. replace (S (calls w + i)) with (calls w + S i)%nat by lia.
        apply Hf. lia.
      * rewrite Hr, Hc. rewrite !issueTimes_app, issueTimes_callEvents. simpl.
        rewrite Hl. simpl. repeat split; lia.
Qed.

(** C2. When every call the fetcher makes for a request is throttled (or
    fails transiently), it gives up with the terminal rate-limit error once
    the retry count is used up, and asks the marketplace for nothing more:
    it has then issued as many calls as the count left, one at least. From
    a state without failures that is [maxRetries] calls; with [maxRetries]
    = 3, three calls, and a fourth throttling answer held ready is never
    asked for. *)
Theorem retries_exhausted (cfg : Config) (mk : Marketplace)
    (st : RateLimiterState) (w : World) :
  let attempts := Nat.max 1 (maxRetries cfg - consecutiveFailureCount st) in
  (∀ i, (i < attempts)%nat → isFailure (reply mk (calls w + i)) = true) →
  result (fetch cfg mk st w) = RateLimitError
  ∧ length (issueTimes (events (fetch cfg mk st w))) = attempts
  ∧ calls (world (fetch cfg mk st w)) = (calls w + attempts)%nat
  ∧ (consecutiveFailureCount st = 0%nat → maxRetries cfg = 3%nat →
     length (issueTimes (events (fetch cfg mk st w))) = 3%nat
     ∧ calls (world (fetch cfg mk st w)) = (calls w + 3)%nat).
Proof.
  intros attempts Hf.
  destruct (fetch_exhausts cfg mk (maxRetries cfg - consecutiveFailureCount st) st w)
    as (Hr & Hl & Hn); [done | done |].
  split; [done|]. split; [done|]. split; [done|].
  intros Hc E. rewrite Hl, Hn, Hc, E. by split.
Qed.

Lemma retries_exhausted_witness :
  let mk := scripted [Throttled; Throttled; Throttled; Throttled] (Records []) 10 in
  result (fetch sampleConfig mk (initial sampleConfig) start) = RateLimitError
  ∧ length (issueTimes (events (fetch sampleConfig mk (initial sampleConfig) start))) = 3%nat
  ∧ calls (world (fetch sampleConfig mk (initial sampleConfig) start)) = 3%nat.
Proof.
  intros mk.
  assert (∀ i, (i < Nat.max 1 (maxRetries sampleConfig
                                - consecutiveFailureCount (initial sampleConfig)))%nat →
               isFailure (reply mk (calls start + i)) = true) as Hf.
  { intros i Hi. simpl in Hi. unfold defaultMaxRetries in Hi. simpl.
    destruct i as [|[|[|i]]]; [reflexivity..|lia]. }
  destruct (retries_exhausted sampleConfig mk (initial sampleConfig) start Hf)
    as (Hr & _ & _ & H3).
  destruct (H3 eq_refl eq_refl) as [Hl Hn]. exact (conj Hr (conj Hl Hn)).
Defined.

(** The fourth answer of that marketplace would have been a success. *)
Example fourth_answer_unused :
  let mk := scripted [Throttled; Throttled; Throttled] (Records []) 10 in
  result (fetch sampleConfig mk (initial sampleConfig) start) = RateLimitError
  ∧ reply mk 3 = Records [].
Proof. vm_compute. split; reflexivity. Qed.












End FetcherFacts.

(** ** The result normalizer *)

Module NormalizerFacts.
Import Dom Normalizer.

#[local] Set Warnings "-clear-no-such-hyp".

Lemma dedup_fresh seen l r : r ∈ dedup seen l → reference r ∉ seen.
Proof.
  revert seen. induction l as [|x l IH]; intros seen; simpl.
  - intros H. by apply elem_of_nil in H.
  - destruct (decide (reference x ∈ seen)) as [Hin|Hnin]; [by apply IH|].
    intros [->|H]%elem_of_cons; [done|]. apply IH in H. set_solver.
Qed.

Lemma dedup_sublist seen l : sublist (dedup seen l) l.
Proof.
  revert seen. induction l as [|x l IH]; intros seen; simpl; [constructor|].
  destruct (decide (reference x ∈ seen)); by constructor.
Qed.

Lemma dedup_NoDup seen l : NoDup (references (dedup seen l)).
Proof.
  revert seen. induction l as [|x l IH]; intros seen; simpl; [constructor|].
  destruct (decide (reference x ∈ seen)); [done|].
  simpl. apply NoDup_cons. split; [|done].
  intros (r & Hr & Hin)%list_elem_of_fmap. apply dedup_fresh in Hin. set_solver.
Qed.

(** The first record carrying a reference is the one that is kept. *)
Lemma dedup_first seen l ref :
  firstWith ref (dedup seen l) = if decide (ref ∈ seen) then None else firstWith ref l.
Proof.
  unfold firstWith. revert seen. induction l as [|x l IH]; intros seen; simpl.
  - by destruct (decide (ref ∈ seen)).
  - destruct (decide (reference x ∈ seen)) as [Hin|Hnin].
    + rewrite IH. destruct (decide (ref ∈ seen)) as [|Hn]; [done|].
      destruct (String.eqb_spec (reference x) ref) as [E|E]; [|done].
      by rewrite E in Hin.
    + simpl. destruct (String.eqb_spec (reference x) ref) as [E|E].
      * rewrite E in Hnin. by destruct (decide (ref ∈ seen)).
      * rewrite IH. destruct (decide (ref ∈ seen)), (decide (ref ∈ {[reference x]} ∪ seen));
          try done; set_solver.
Qed.

Lemma firstWith_Some ref l : ref ∈ references l ↔ is_Some (firstWith ref l).
Proof.
  unfold firstWith, references. induction l as [|x l IH]; simpl.
  - split; [intros H; by apply elem_of_nil in H | by intros [? ?]].
  - destruct (String.eqb_spec (reference x) ref) as [E|E].
    + split; [by eauto | intros _; apply elem_of_cons; by left].
    + rewrite elem_of_cons, IH. split; [by intros [?|?] | auto].
Qed.

(** A list without repeated references is left as it is. *)
Lemma dedup_id seen l :
  NoDup (references l) → (∀ r, r ∈ l → reference r ∉ seen) → dedup seen l = l.
Proof.
  revert seen. induction l as [|x l IH]; intros seen Hnd Hfresh; simpl; [done|].
  simpl in Hnd. apply NoDup_cons in Hnd as [Hx Hnd].
  destruct (decide (reference x ∈ seen)) as [Hin|_].
  - exfalso. apply (Hfresh x); [apply elem_of_cons; by left | done].
  - f_equal. apply IH; [done|]. intros r Hr.
    assert (reference r ∉ seen) by (apply Hfresh, elem_of_cons; by right).
    assert (reference r ≠ reference x).
    { intros E. apply Hx. rewrite <- E. apply list_elem_of_fmap. eauto. }
    set_solver.
Qed.

(** Without repetitions inside the list, the loop is a filter. *)
Lemma dedup_filter seen l :
  NoDup (references l) →
  dedup seen l = List.filter (fun r => bool_decide (reference r ∉ seen)) l.
Proof.
  revert seen. induction l as [|x l IH]; intros seen Hnd; simpl; [done|].
  simpl in Hnd. apply NoDup_cons in Hnd as [Hx Hnd].
  destruct (decide (reference x ∈ seen)) as [Hin|Hnin].
  - rewrite bool_decide_eq_false_2 by tauto. by apply IH.
  - rewrite bool_decide_eq_true_2 by done. f_equal. rewrite IH by done.
    apply filter_ext_in. intros r Hr.
    assert (reference r ≠ reference x).
    { intros E. apply Hx. rewrite <- E. apply list_elem_of_fmap.
      exists r. split; [done | by apply list_elem_of_In]. }
    apply bool_decide_ext. set_solver.
Qed.

Lemma dedup_app seen l1 l2 :
  NoDup (references l1) → (∀ r, r ∈ l1 → reference r ∉ seen) →
  dedup seen (l1 ++ l2) = l1 ++ dedup (list_to_set (references l1) ∪ seen) l2.
Proof.
  revert seen. induction l1 as [|x l1 IH]; intros seen Hnd Hfresh; simpl.
  - f_equal. set_solver.
  - simpl in Hnd. apply NoDup_cons in Hnd as [Hx Hnd].
    destruct (decide (reference x ∈ seen)) as [Hin|_].
    { exfalso. apply (Hfresh x); [apply elem_of_cons; by left | done]. }
    f_equal. rewrite IH; [f_equal; f_equal; set_solver | done |].
    intros r Hr.
    assert (reference r ∉ seen) by (apply Hfresh, elem_of_cons; by right).
    assert (reference r ≠ reference x).
    { intros E. apply Hx. rewrite <- E. apply list_elem_of_fmap. eauto. }
    set_solver.
Qed.

Lemma normalize_NoDup raw : NoDup (references (normalize raw)).
Proof. apply dedup_NoDup. Qed.

Lemma normalize_id raw : NoDup (references raw) → normalize raw = raw.
Proof. intros H. apply dedup_id; [done | set_solver]. Qed.

Lemma normalize_first raw ref : firstWith ref (normalize raw) = firstWith ref raw.
Proof. unfold normalize. rewrite dedup_first. by destruct (decide (ref ∈ ∅)); [set_solver|]. Qed.

(** Two pages without repetitions inside: the second contributes the
    records whose reference the first does not have. *)
Lemma normalize_pages page1 page2 :
  NoDup (references page1) → NoDup (references page2) →
  length (normalize (page1 ++ page2)) + length (overlap page1 page2)
  = length page1 + length page2.
Proof.
  intros H1 H2. unfold normalize.
  rewrite dedup_app by (done || set_solver).
  rewrite dedup_filter by done. rewrite length_app. unfold overlap.
  assert (∀ (P Q : MarketplaceRecord → bool) l,
            (∀ r, P r = negb (Q r)) →
            length (List.filter P l) + length (List.filter Q l) = length l) as Hsplit.
  { intros P Q l HPQ. induction l as [|x l IH]; simpl; [done|].
    rewrite HPQ. destruct (Q x); simpl; lia. }
  rewrite <- Nat.add_assoc. f_equal. apply Hsplit.
  intros r. rewrite <- bool_decide_not. apply bool_decide_ext.
  set_solver.
Qed.

(** A record at the end of the input is appended to the result when its
    reference has not occurred before, and dropped otherwise. *)
Lemma dedup_snoc seen l r :
  dedup seen (l ++ [r])
  = dedup seen l
    ++ (if decide (reference r ∈ seen ∨ reference r ∈ references l) then [] else [r]).
Proof.
  revert seen. induction l as [|x l IH]; intros seen; simpl.
  - destruct (decide (reference r ∈ seen)) as [Hin|Hnin].
    + by rewrite decide_True by (by left).
    + rewrite decide_False; [done|]. intros [?|H]; [done|]. by apply elem_of_nil in H.
  - destruct (decide (reference x ∈ seen)) as [Hin|Hnin].
    + rewrite IH. f_equal. apply decide_ext.
      unfold references. simpl. rewrite elem_of_cons.
      split; [tauto|]. intros [?|[E|?]]; [tauto| |tauto]. left. by rewrite E.
    + simpl. rewrite IH. do 2 f_equal. apply decide_ext.
      unfold references. simpl. rewrite elem_of_cons. set_solver.
Qed.

Lemma normalize_snoc l r :
  normalize (l ++ [r])
  = normalize l ++ (if decide (reference r ∈ references l) then [] else [r]).
Proof.
  unfold normalize. rewrite dedup_snoc. f_equal. apply decide_ext. set_solver.
Qed.

(** The result is made of the records that are the first of the input with
    their reference, in the order of their positions. *)
Lemma normalize_positions raw :
  ∃ positions : list nat,
    (∀ a b i j, (a < b)%nat → positions !! a = Some i → positions !! b = Some j → (i < j)%nat)
    ∧ (∀ i, i ∈ positions ↔
            ∃ r, raw !! i = Some r ∧ reference r ∉ references (take i raw))
    ∧ normalize raw = omap (fun i => raw !! i) positions.
Proof.
  induction raw as [|r l IH] using rev_ind.
  - exists []. split; [intros a b i j _ H; by rewrite lookup_nil in H|]. split; [|done].
    intros i. split; [intros H; by apply elem_of_nil in H|]. by intros (r & H & _).
  - destruct IH as (ps & Hsorted & Hmem & Hnorm).
    assert (∀ i, i ∈ ps → (i < length l)%nat) as Hlt.
    { intros i (r0 & H & _)%Hmem. by apply lookup_lt_Some in H. }
    assert (omap (fun i => (l ++ [r]) !! i) ps = omap (fun i => l !! i) ps) as Hsame.
    { apply list_omap_ext, Forall_Forall2_diag, Forall_forall.
      intros i Hi. by apply lookup_app_l, Hlt. }
    assert (∀ i, (i < length l)%nat →
              (i ∈ ps ↔ ∃ r0, (l ++ [r]) !! i = Some r0
                              ∧ reference r0 ∉ references (take i (l ++ [r])))) as Hold.
    { intros i Hi. rewrite Hmem, lookup_app_l by done. by rewrite take_app_le by lia. }
    rewrite normalize_snoc, Hnorm.
    destruct (decide (reference r ∈ references l)) as [Hseen|Hfresh].
    + exists ps. split; [done|]. split; [|by rewrite app_nil_r, Hsame].
      intros i. destruct (decide (i < length l)%nat) as [Hi|Hi]; [by apply Hold|].
      split; [intros H%Hlt; lia|]. intros (r0 & H & Hr0). exfalso.
      pose proof (lookup_lt_Some _ _ _ H) as Hlen. rewrite length_app in Hlen. simpl in Hlen.
      assert (i = length l) as -> by lia.
      rewrite list_lookup_middle in H by done. injection H as <-.
      by rewrite take_app_length in Hr0.
    + exists (ps ++ [length l]). split; [|split].
      * intros a b i j Hab Ha Hb.
        destruct (decide (b < length ps)%nat) as [Hb'|Hb'].
        { rewrite lookup_app_l in Ha by lia. rewrite lookup_app_l in Hb by done. eauto. }
        pose proof (lookup_lt_Some _ _ _ Hb) as Hlen. rewrite length_app in Hlen. simpl in Hlen.
        assert (b = length ps) as -> by lia.
        rewrite list_lookup_middle in Hb by done. injection Hb as <-.
        rewrite lookup_app_l in Ha by done. apply Hlt. apply list_elem_of_lookup. eauto.
      * intros i. rewrite elem_of_app, list_elem_of_singleton.
        destruct (decide (i < length l)%nat) as [Hi|Hi].
        { rewrite <- Hold by done. split; [intros [?|?]; [done|lia] | auto]. }
        split.
        -- intros [H%Hlt| ->]; [lia|]. exists r.
           rewrite list_lookup_middle by done. by rewrite take_app_length.
        -- intros (r0 & H & _). right.
           pose proof (lookup_lt_Some _ _ _ H) as Hlen. rewrite length_app in Hlen.
           simpl in Hlen. lia.
      * rewrite omap_app, Hsame. f_equal. simpl.
        by rewrite list_lookup_middle.
Qed.

(** C5. [normalize] keeps one record per reference, the first one, in
    first-seen order: its result has no repeated reference, is a
    subsequence of the input, has the same references, and for each
    reference the record it holds is the first of the input. More
    precisely, the result is the list of the records found at the
    positions of first occurrence (the positions [i] such that no record
    before [i] has the reference of the record at [i]), taken in
    increasing order of position. It leaves a list without repeated
    references unchanged, so normalizing twice is normalizing once. Two
    pages of 50 and 40 records without repetitions inside, 10 records of
    the second repeating references of the first, normalize to 80
    records. *)
Theorem normalize_first_seen (raw : list MarketplaceRecord) :
  NoDup (references (normalize raw))
  ∧ sublist (normalize raw) raw
  ∧ (∀ ref, ref ∈ references (normalize raw) ↔ ref ∈ references raw)
  ∧ (∀ ref, firstWith ref (normalize raw) = firstWith ref raw)
  ∧ (∃ positions : list nat,
       (∀ a b i j, (a < b)%nat →
          positions !! a = Some i → positions !! b = Some j → (i < j)%nat)
       ∧ (∀ i, i ∈ positions ↔
               ∃ r, raw !! i = Some r ∧ reference r ∉ references (take i raw))
       ∧ normalize raw = omap (fun i => raw !! i) positions)
  ∧ (NoDup (references raw) → normalize raw = raw)
  ∧ normalize (normalize raw) = normalize raw
  ∧ (∀ page1 page2,
       raw = page1 ++ page2 →
       NoDup (references page1) → NoDup (references page2) →
       length page1 = 50 → length page2 = 40 → length (overlap page1 page2) = 10 →
       length (normalize raw) = 80).
Proof.
  split; [apply normalize_NoDup|].
  split; [apply dedup_sublist|].
  split; [intros ref; by rewrite !firstWith_Some, normalize_first|].
  split; [apply normalize_first|].
  split; [apply normalize_positions|].
  split; [apply normalize_id|].
  split; [apply normalize_id, normalize_NoDup|].
  intros page1 page2 -> H1 H2 L1 L2 L3.
  pose proof (normalize_pages page1 page2 H1 H2). lia.
Qed.

Lemma normalize_first_seen_witness :
  let page1 := map sampleRecord (seq 0 50) in
  let page2 := map sampleRecord (seq 40 40) in
  length (normalize (page1 ++ page2)) = 80
  ∧ normalize (normalize (page1 ++ page2)) = normalize (page1 ++ page2).
Proof.
  intros page1 page2.
  assert (NoDup (references page1)) as H1 by (apply (bool_decide_unpack _); vm_compute; exact I).
  assert (NoDup (references page2)) as H2 by (apply (bool_decide_unpack _); vm_compute; exact I).
  destruct (normalize_first_seen (page1 ++ page2)) as (_ & _ & _ & _ & _ & _ & Hidem & Hlen).
  split; [|exact Hidem].
  apply (Hlen page1 page2 eq_refl H1 H2); vm_compute; reflexivity.
Defined.

(** Two increasing lists of positions with the same members are equal. *)
Lemma increasing_unique (p q : list nat) :
  (∀ a b i j, (a < b)%nat → p !! a = Some i → p !! b = Some j → (i < j)%nat) →
  (∀ a b i j, (a < b)%nat → q !! a = Some i → q !! b = Some j → (i < j)%nat) →
  (∀ i, i ∈ p ↔ i ∈ q) →
  p = q.
Proof.
  revert q. induction p as [|x p IH]; intros q Hp Hq Hmem.
  - destruct q as [|y q]; [done|]. exfalso.
    assert (y ∈ []) as H by (apply Hmem, elem_of_cons; by left). by apply elem_of_nil in H.
  - destruct q as [|y q].
    { exfalso. assert (x ∈ []) as H by (apply Hmem, elem_of_cons; by left).
      by apply elem_of_nil in H. }
    assert (∀ i, i ∈ p → (x < i)%nat) as Hxp.
    { intros i [k Hk]%list_elem_of_lookup. apply (Hp 0%nat (S k)); [lia|done|done]. }
    assert (∀ i, i ∈ q → (y < i)%nat) as Hyq.
    { intros i [k Hk]%list_elem_of_lookup. apply (Hq 0%nat (S k)); [lia|done|done]. }
    assert (x = y) as ->.
    { assert (x ∈ y :: q) as Hx by (apply Hmem, elem_of_cons; by left).
      assert (y ∈ x :: p) as Hy by (apply Hmem, elem_of_cons; by left).
      apply elem_of_cons in Hx as [?|Hx%Hyq]; [done|].
      apply elem_of_cons in Hy as [?|Hy%Hxp]; [done|]. lia. }
    f_equal. apply IH.
    + intros a b i j Hab Ha Hb. apply (Hp (S a) (S b)); [lia|done|done].
    + intros a b i j Hab Ha Hb. apply (Hq (S a) (S b)); [lia|done|done].
    + intros i. split; intros Hi.
      * assert (i ∈ y :: q) as H by (apply Hmem, elem_of_cons; by right).
        apply elem_of_cons in H as [->|H]; [|done]. apply Hxp in Hi. lia.
      * assert (i ∈ y :: p) as H by (apply Hmem, elem_of_cons; by right).
        apply elem_of_cons in H as [->|H]; [|done]. apply Hyq in Hi. lia.
Qed.

(** The description by positions leaves no choice: a list that is made of
    the records at the positions of first occurrence, in increasing
    order, is the result of [normalize]. *)
Lemma first_seen_determined raw out positions :
  (∀ a b i j, (a < b)%nat → positions !! a = Some i → positions !! b = Some j → (i < j)%nat) →
  (∀ i, i ∈ positions ↔ ∃ r, raw !! i = Some r ∧ reference r ∉ references (take i raw)) →
  out = omap (fun i => raw !! i) positions →
  out = normalize raw.
Proof.
  intros Hinc Hmem ->.
  destruct (normalize_positions raw) as (ps & Hinc' & Hmem' & ->).
  f_equal. apply increasing_unique; [done|done|].
  intros i. by rewrite Hmem, Hmem'.
Qed.

Example normalize_keeps_first :
  let a := sampleRecord 65 in
  let b := sampleRecord 66 in
  let a' := {| reference := reference a; title := "Titanic (copy)"; license := license a;
               tags := Some []; last_updated := last_updated a; files := [] |} in
  normalize [a; b; a'; b; a] = [a; b].
Proof. vm_compute. reflexivity. Qed.

End NormalizerFacts.

(** * Further properties of the scripts *)

(** ** Trimming and escaping *)

Module JsExtra.
Import Js Escaping.

Lemma append_cons c s t : String c s +:+ t = String c (s +:+ t).
Proof. reflexivity. Qed.

Lemma blank_cons c s : blank (String c s) = isWhiteSpace c && blank s.
Proof. reflexivity. Qed.

Lemma trimStart_app_blank l s : blank l = true → trimStart (l +:+ s) = trimStart s.
Proof.
  induction l as [|c l IH]; [done|].
  rewrite blank_cons. intros [Hc Hl]%andb_prop.
  rewrite append_cons. simpl. rewrite Hc. auto.
Qed.

Lemma trimEnd_app_blank s r : blank r = true → trimEnd (s +:+ r) = trimEnd s.
Proof.
  intros Hr. induction s as [|c s IH].
  - change (EmptyString +:+ r) with r. by apply JsFacts.trimEnd_blank.
  - rewrite append_cons. simpl. by rewrite IH.
Qed.

Lemma trim_app_blank s r : blank r = true → trim (s +:+ r) = trim s.
Proof.
  intros Hr. unfold trim. induction s as [|c s IH].
  - change (EmptyString +:+ r) with r. by rewrite JsFacts.trimStart_blank.
  - rewrite append_cons. simpl. destruct (isWhiteSpace c); [done|].
    rewrite <- append_cons. by apply trimEnd_app_blank.
Qed.

(** White space around a string does not change what [trim] gives. *)
Lemma trim_padded l s r :
  blank l = true → blank r = true → trim (l +:+ s +:+ r) = trim s.
Proof.
  intros Hl Hr. unfold trim at 1. rewrite trimStart_app_blank by done.
  by apply trim_app_blank.
Qed.

Lemma hexDigit_unreserved k : (k < 16)%nat → unreserved (hexDigit k) = true.
Proof.
  intros Hk. do 16 (destruct k as [|k]; [reflexivity|]). lia.
Qed.

Lemma percent_plain n : (n < 256)%nat → Forall plain (list_ascii_of_string (percent n)).
Proof.
  intros Hn. unfold percent. cbn [list_ascii_of_string].
  apply Forall_cons; split; [by right|].
  apply Forall_cons; split.
  { left. apply hexDigit_unreserved. apply Nat.Div0.div_lt_upper_bound. lia. }
  apply Forall_cons; split; [|by apply Forall_nil].
  left. apply hexDigit_unreserved. apply Nat.mod_upper_bound. lia.
Qed.

Lemma list_ascii_app s t :
  list_ascii_of_string (s +:+ t) = list_ascii_of_string s ++ list_ascii_of_string t.
Proof.
  induction s as [|c s IH]; [done|]. rewrite append_cons. simpl. by rewrite IH.
Qed.

Lemma encodeChar_plain c : Forall plain (list_ascii_of_string (encodeChar c)).
Proof.
  unfold encodeChar. destruct (unreserved c) eqn:U.
  - simpl. apply Forall_cons; split; [by left | by apply Forall_nil].
  - pose proof (nat_ascii_bounded c) as Hb.
    destruct (Nat.ltb (nat_of_ascii c) 128) eqn:L.
    + apply percent_plain. lia.
    + rewrite list_ascii_app. apply Forall_app. split; apply percent_plain.
      * assert (nat_of_ascii c / 64 < 4)%nat by (apply Nat.Div0.div_lt_upper_bound; lia). lia.
      * pose proof (Nat.mod_upper_bound (nat_of_ascii c) 64). lia.
Qed.

Lemma encodeURIComponent_plain s :
  Forall plain (list_ascii_of_string (encodeURIComponent s)).
Proof.
  induction s as [|c s IH]; simpl; [constructor|].
  rewrite list_ascii_app. apply Forall_app. split; [apply encodeChar_plain | done].
Qed.

End JsExtra.

(** ** Search terms of any code units *)

Module Utf16Facts.
Import Dom Escaping Utf16.
Local Open Scope N_scope.

Lemma isWhiteSpace_ascii c : isWhiteSpace (N_of_ascii c) = Js.isWhiteSpace c.
Proof. destruct c as [[] [] [] [] [] [] [] []]; reflexivity. Qed.

Lemma unreserved_ascii c : unreserved (N_of_ascii c) = Js.unreserved c.
Proof. destruct c as [[] [] [] [] [] [] [] []]; reflexivity. Qed.

Lemma trimStart_ofString s : trimStart (ofString s) = ofString (Js.trimStart s).
Proof.
  induction s as [|c s IH]; [done|].
  change (ofString (String c s)) with (N_of_ascii c :: ofString s).
  simpl. rewrite isWhiteSpace_ascii. by destruct (Js.isWhiteSpace c).
Qed.

Lemma trimEnd_ofString s : trimEnd (ofString s) = ofString (Js.trimEnd s).
Proof.
  induction s as [|c s IH]; [done|].
  change (ofString (String c s)) with (N_of_ascii c :: ofString s).
  simpl. rewrite IH, isWhiteSpace_ascii.
  destruct (Js.trimEnd s); [by destruct (Js.isWhiteSpace c) | done].
Qed.

Lemma trim_ofString s : trim (ofString s) = ofString (Js.trim s).
Proof. unfold trim, Js.trim. by rewrite trimStart_ofString, trimEnd_ofString. Qed.

Lemma truthy_ofString s : truthy (ofString s) = Js.truthy s.
Proof. by destruct s. Qed.

Lemma encode_unit c rest :
  encodeURIComponent (N_of_ascii c :: rest)
  = (fun q => Js.encodeChar c +:+ q) <$> encodeURIComponent rest.
Proof. destruct c as [[] [] [] [] [] [] [] []]; reflexivity. Qed.

(** On strings of code units below 256 [encodeURIComponent] does not throw
    and gives what [Js.encodeURIComponent] gives. *)
Lemma encodeURIComponent_ofString s :
  encodeURIComponent (ofString s) = Some (Js.encodeURIComponent s).
Proof.
  induction s as [|c s IH]; [done|].
  change (ofString (String c s)) with (N_of_ascii c :: ofString s).
  by rewrite encode_unit, IH.
Qed.

Lemma utf8_octets cp : Forall (fun o => o < 256) (utf8 cp).
Proof.
  unfold utf8.
  pose proof (N.mod_lt cp 64). pose proof (N.mod_lt (cp / 64) 64).
  pose proof (N.mod_lt (cp / 4096) 64). pose proof (N.mod_lt (cp / 262144) 8).
  destruct (N.ltb_spec cp 128); [repeat constructor; lia|].
  destruct (N.ltb_spec cp 2048).
  { assert (cp / 64 < 32) by (apply N.Div0.div_lt_upper_bound; lia).
    repeat constructor; lia. }
  destruct (N.ltb_spec cp 65536).
  { assert (cp / 4096 < 16) by (apply N.Div0.div_lt_upper_bound; lia).
    repeat constructor; lia. }
  repeat constructor; lia.
Qed.

Lemma escape_plain octets :
  Forall (fun o => o < 256) octets → Forall plain (list_ascii_of_string (escape octets)).
Proof.
  induction 1 as [|o octets Ho _ IH]; cbn [escape]; [constructor|].
  rewrite JsExtra.list_ascii_app. apply Forall_app. split; [|done].
  apply JsExtra.percent_plain. lia.
Qed.

Lemma unreserved_small u : unreserved u = true → u < 128.
Proof.
  intros H. destruct (N.lt_ge_cases u 128) as [|Hge]; [done|]. exfalso.
  unfold unreserved, existsb in H.
  rewrite (proj2 (N.leb_gt u 90)), (proj2 (N.leb_gt u 122)), (proj2 (N.leb_gt u 57)) in H by lia.
  rewrite !andb_false_r in H. simpl in H.
  repeat (match type of H with
          | context [N.eqb u ?k] => rewrite (proj2 (N.eqb_neq u k)) in H by lia
          end).
  discriminate.
Qed.

Lemma unreserved_plain u : unreserved u = true → plain (ascii_of_N u).
Proof.
  intros H. left. rewrite <- unreserved_ascii.
  rewrite N_ascii_embedding; [done|]. apply unreserved_small in H. lia.
Qed.

Lemma unreserved_not_surrogate u :
  unreserved u = true → isTrailingSurrogate u = false ∧ isLeadingSurrogate u = false.
Proof.
  intros H%unreserved_small. unfold isTrailingSurrogate, isLeadingSurrogate.
  rewrite (proj2 (N.leb_gt 0xDC00 u)), (proj2 (N.leb_gt 0xD800 u)) by lia. done.
Qed.

Lemma encodeURIComponent_cons u rest :
  encodeURIComponent (u :: rest)
  = if unreserved u then
      (fun q => String (ascii_of_N u) q) <$> encodeURIComponent rest
    else if isTrailingSurrogate u then None
    else if isLeadingSurrogate u then
      match rest with
      | v :: rest' =>
          if isTrailingSurrogate v
          then (fun q => escape (utf8 (codePoint u v)) +:+ q) <$> encodeURIComponent rest'
          else None
      | [] => None
      end
    else (fun q => escape (utf8 u) +:+ q) <$> encodeURIComponent rest.
Proof. reflexivity. Qed.

Lemma isWellFormed_cons u rest :
  isWellFormed (u :: rest)
  = if isTrailingSurrogate u then false
    else if isLeadingSurrogate u then
      match rest with
      | v :: rest' => isTrailingSurrogate v && isWellFormed rest'
      | [] => false
      end
    else isWellFormed rest.
Proof. reflexivity. Qed.

(** What [encodeURIComponent] puts out is made of unreserved characters
    and percent signs. *)
Lemma encoded_plain s :
  (∀ q, encodeURIComponent s = Some q → Forall plain (list_ascii_of_string q))
  ∧ (∀ u q, encodeURIComponent (u :: s) = Some q → Forall plain (list_ascii_of_string q)).
Proof.
  assert (∀ octets q q',
            Forall plain (list_ascii_of_string q') →
            q = escape (utf8 octets) +:+ q' →
            Forall plain (list_ascii_of_string q)) as Hesc.
  { intros cp q q' Hq' ->. rewrite JsExtra.list_ascii_app. apply Forall_app.
    split; [apply escape_plain, utf8_octets | done]. }
  induction s as [|v s [IH1 IH2]].
  - split; [intros q [= <-]; constructor|].
    intros u q. simpl.
    destruct (unreserved u) eqn:U.
    { intros [= <-]. simpl. constructor; [by apply unreserved_plain | constructor]. }
    destruct (isTrailingSurrogate u); [done|]. destruct (isLeadingSurrogate u); [done|].
    intros [= <-]. eapply Hesc; [|reflexivity]. constructor.
  - split; [apply IH2|].
    intros u q. rewrite (encodeURIComponent_cons u (v :: s)). cbv iota beta.
    destruct (unreserved u) eqn:U.
    { intros (q' & Hq' & ->)%fmap_Some. simpl.
      constructor; [by apply unreserved_plain | by eapply IH2]. }
    destruct (isTrailingSurrogate u); [done|].
    destruct (isLeadingSurrogate u).
    + destruct (isTrailingSurrogate v); [|done].
      intros (q' & Hq' & ->)%fmap_Some. eapply Hesc; [|reflexivity]. by apply IH1.
    + intros (q' & Hq' & ->)%fmap_Some. eapply Hesc; [|reflexivity]. by eapply IH2.
Qed.

(** [encodeURIComponent] throws exactly on the strings in which a
    surrogate stands alone. *)
Lemma encodeURIComponent_throws s :
  (encodeURIComponent s = None ↔ isWellFormed s = false)
  ∧ (∀ u, encodeURIComponent (u :: s) = None ↔ isWellFormed (u :: s) = false).
Proof.
  induction s as [|v s [IH1 IH2]].
  - split; [done|]. intros u. simpl.
    destruct (unreserved u) eqn:U.
    { destruct (unreserved_not_surrogate u U) as [-> ->]. done. }
    destruct (isTrailingSurrogate u); [done|]. by destruct (isLeadingSurrogate u).
  - split; [apply IH2|].
    intros u. rewrite (encodeURIComponent_cons u (v :: s)), (isWellFormed_cons u (v :: s)).
    cbv iota beta.
    destruct (unreserved u) eqn:U.
    { destruct (unreserved_not_surrogate u U) as [-> ->].
      rewrite fmap_None. apply IH2. }
    destruct (isTrailingSurrogate u); [done|].
    destruct (isLeadingSurrogate u).
    + destruct (isTrailingSurrogate v); [|done]. rewrite fmap_None. simpl. apply IH1.
    + rewrite fmap_None. apply IH2.
Qed.

(** On a value of code units below 256 the handlers do what the handlers
    of [Upload] and [Script] do. *)
Lemma handlers_ofString s net m m' :
  handleSearchWithKeyword (ofString s) net m = Upload.handleSearchWithKeyword s net m
  ∧ handleSearch (ofString s) net m' = Script.handleSearch s net m'.
Proof.
  unfold handleSearchWithKeyword, handleSearch, Upload.handleSearchWithKeyword,
    Script.handleSearch.
  by rewrite trim_ofString, truthy_ofString, encodeURIComponent_ofString.
Qed.

Lemma plain_not_delimiter c : plain c → c ∉ delimiters.
Proof.
  intros Hp Hin. unfold delimiters in Hin.
  repeat (apply elem_of_cons in Hin as [->|Hin]; [by destruct Hp|]).
  by apply elem_of_nil in Hin.
Qed.

(** X1. The keyword search, in both versions, with a search box that holds
    any string and a term that is not empty once trimmed. When no
    surrogate stands alone in the term, the handler shows the loading note
    and sends one request, the GET of the search path followed by the
    encoded term, which is made of unreserved characters and percent signs
    only: no character of the term can end the parameter or start another
    one. When a surrogate stands alone, [encodeURIComponent] throws: the
    handler shows the loading note and then the error, sends nothing and
    leaves the manager as it was. *)
Theorem keyword_query_escaped (searchInput : list N) (net : Response)
    (m : Upload.DatasetManager) (m' : Script.DatasetManager) :
  trim searchInput ≠ [] →
  match encodeURIComponent (trim searchInput) with
  | Some query =>
      isWellFormed (trim searchInput) = true
      ∧ Forall plain (list_ascii_of_string query)
      ∧ Forall (fun c => c ∉ delimiters) (list_ascii_of_string query)
      ∧ (∃ rest,
           (handleSearchWithKeyword searchInput net m).2
           = SetParagraph "availableDatasets" "loading" "Searching datasets..."
             :: Fetch (GET (Config.BACKEND_URL +:+ "/search-keyword?keyword=" +:+ query))
             :: rest
           ∧ Forall (fun e => isFetch e = false) rest)
      ∧ (∃ rest,
           (handleSearch searchInput net m').2
           = SetParagraph "availableDatasets" "loading" "Searching datasets..."
             :: Fetch (GET (Config.BACKEND_URL +:+ "/search?keyword=" +:+ query))
             :: rest
           ∧ Forall (fun e => isFetch e = false) rest)
  | None =>
      isWellFormed (trim searchInput) = false
      ∧ handleSearchWithKeyword searchInput net m
        = (m, [SetParagraph "availableDatasets" "loading" "Searching datasets...";
               Upload.backendError "datasets"])
      ∧ handleSearch searchInput net m'
        = (m', [SetParagraph "availableDatasets" "loading" "Searching datasets...";
                Script.backendError])
  end.
Proof.
  intros Hne. unfold handleSearchWithKeyword, handleSearch.
  destruct (trim searchInput) as [|u term] eqn:Hterm; [done|].
  cbn [truthy negb]. rewrite <- Hterm. clear Hne.
  pose proof (proj1 (encodeURIComponent_throws (trim searchInput))) as Hthrows.
  destruct (encodeURIComponent (trim searchInput)) as [query|] eqn:E.
  - pose proof (proj1 (encoded_plain (trim searchInput)) query E) as Hp.
    split. { apply not_false_iff_true. intros W. by apply Hthrows in W. }
    split; [done|]. split.
    { eapply Forall_impl; [exact Hp|]. apply plain_not_delimiter. }
    unfold Upload.keywordRequest, Script.keywordRequest. split.
    + destruct net; eexists; (split; [reflexivity|]);
        try apply UploadFacts.tryCatch_render_no_fetch;
        unfold Upload.backendError; repeat (apply Forall_cons; split; [done|]);
        by apply Forall_nil.
    + destruct net; eexists; (split; [reflexivity|]);
        unfold Script.renderAvailableDatasets, Script.backendError; repeat case_match;
        repeat (apply Forall_cons; split; [done|]); by apply Forall_nil.
  - split; [by apply Hthrows|]. done.
Qed.

Lemma keyword_query_escaped_witness :
  (∃ rest,
     (handleSearchWithKeyword (ofString " R&D = 50% #1 ") NetworkFailure Upload.constructor).2
     = SetParagraph "availableDatasets" "loading" "Searching datasets..."
       :: Fetch (GET (Config.BACKEND_URL +:+ "/search-keyword?keyword="
                        +:+ "R%26D%20%3D%2050%25%20%231"))
       :: rest)
  ∧ handleSearchWithKeyword [0x61; 0xD83D] NetworkFailure Upload.constructor
    = (Upload.constructor,
       [SetParagraph "availableDatasets" "loading" "Searching datasets...";
        Upload.backendError "datasets"]).
Proof.
  split.
  - assert (trim (ofString " R&D = 50% #1 ") ≠ []) as Hne by (vm_compute; discriminate).
    pose proof (keyword_query_escaped (ofString " R&D = 50% #1 ") NetworkFailure
                  Upload.constructor Script.constructor Hne) as H.
    change (encodeURIComponent (trim (ofString " R&D = 50% #1 ")))
      with (Some "R%26D%20%3D%2050%25%20%231") in H.
    destruct H as (_ & _ & _ & (rest & E & _) & _). exists rest. exact E.
  - assert (trim [0x61; 0xD83D] ≠ []) as Hne by (vm_compute; discriminate).
    pose proof (keyword_query_escaped [0x61; 0xD83D] NetworkFailure
                  Upload.constructor Script.constructor Hne) as H.
    change (encodeURIComponent (trim [0x61; 0xD83D])) with (@None string) in H.
    destruct H as (_ & H & _). exact H.
Defined.

End Utf16Facts.

(** ** The upload and keyword front end, continued *)

Module UploadExtra.
Import Dom Upload UploadView Escaping.

Example escaped_term :
  Js.encodeURIComponent (Js.trim " R&D = 50% #1 ") = "R%26D%20%3D%2050%25%20%231".
Proof. reflexivity. Qed.

(** X2. White space around the search term does not matter: the handler
    does with the padded term exactly what it does with the term, in both
    versions of the search. *)
Theorem search_ignores_padding (before searchInput after : string) (net : Response)
    (m : DatasetManager) (m' : Script.DatasetManager) :
  Js.blank before = true → Js.blank after = true →
  handleSearchWithKeyword (before +:+ searchInput +:+ after) net m
  = handleSearchWithKeyword searchInput net m
  ∧ Script.handleSearch (before +:+ searchInput +:+ after) net m'
    = Script.handleSearch searchInput net m'.
Proof.
  intros Hl Hr. unfold handleSearchWithKeyword, Script.handleSearch.
  by rewrite (JsExtra.trim_padded before searchInput after Hl Hr).
Qed.

Lemma search_ignores_padding_witness :
  handleSearchWithKeyword ("  " +:+ "iris" +:+ " ") NetworkFailure constructor
  = handleSearchWithKeyword "iris" NetworkFailure constructor.
Proof.
  apply (search_ignores_padding "  " "iris" " " NetworkFailure constructor
           Script.constructor); reflexivity.
Defined.

Lemma handleFileSelect_keeps_valid files m :
  (handleFileSelect files m).1
  = {| availableDatasets := availableDatasets m;
       uploadedFiles := uploadedFiles m ++ List.filter isValidFileType files;
       selectedDataset := selectedDataset m;
       currentMode := currentMode m |}.
Proof.
  unfold handleFileSelect.
  destruct (List.filter isValidFileType files) as [|f fs] eqn:E; simpl; [|done].
  rewrite app_nil_r. by destruct m.
Qed.

(** X3. Selecting files in two goes leaves the manager as selecting them in
    one go does: the valid files are appended in the order they were
    given, after the files already there. *)
Theorem handleFileSelect_split (first second : list File) (m : DatasetManager) :
  (handleFileSelect (first ++ second) m).1
  = (handleFileSelect second (handleFileSelect first m).1).1
  ∧ uploadedFiles (handleFileSelect (first ++ second) m).1
    = uploadedFiles m ++ List.filter isValidFileType first
        ++ List.filter isValidFileType second.
Proof.
  rewrite !handleFileSelect_keeps_valid. simpl.
  rewrite List.filter_app, <- !app_assoc. done.
Qed.

Lemma filter_all {A} (p : A → bool) l : Forall (fun x => p x = true) l → List.filter p l = l.
Proof.
  induction 1 as [|x l Hx _ IH]; simpl; [done|]. by rewrite Hx, IH.
Qed.

Lemma filter_none {A} (p : A → bool) l : Forall (fun x => p x = false) l → List.filter p l = [].
Proof.
  induction 1 as [|x l Hx _ IH]; simpl; [done|]. by rewrite Hx.
Qed.

(** X4. A selection without a single supported file changes nothing: the
    manager stays as it is and the list of uploaded files is not rendered
    again. All the handler does is the alert with every name of the
    selection, and for an empty selection it does nothing at all. *)
Theorem handleFileSelect_nothing_valid (files : list File) (m : DatasetManager) :
  Forall (fun f => ¬ supported f) files →
  handleFileSelect files m
  = (m, match files with
        | [] => []
        | _ => [Alert (unsupportedMessage (Js.join ", " (map name files)))]
        end).
Proof.
  intros Hbad.
  assert (Forall (fun f => isValidFileType f = false) files) as Hf.
  { eapply Forall_impl; [exact Hbad|]. intros f. apply UploadFacts.isValidFileType_unsupported. }
  unfold handleFileSelect. rewrite (filter_none _ _ Hf).
  rewrite (filter_all (fun f => negb (isValidFileType f)) files).
  - by destruct files.
  - eapply Forall_impl; [exact Hf|]. intros f ->. done.
Qed.

Lemma handleFileSelect_nothing_valid_witness :
  let txt := {| name := "notes.txt"; type := "text/plain"; size := 12 |} in
  let exe := {| name := "setup.exe"; type := "application/octet-stream"; size := 900 |} in
  handleFileSelect [txt; exe] constructor
  = (constructor, [Alert (unsupportedMessage "notes.txt, setup.exe")]).
Proof.
  intros txt exe.
  apply (handleFileSelect_nothing_valid [txt; exe] constructor).
  apply (bool_decide_unpack _). vm_compute. exact I.
Defined.

(** X5. [removeFile] with the index of a file of the list takes out that
    file and no other, the rest keeping its order; with an index at or
    past the end it leaves the list as it is. *)
Theorem removeFile_bounds (index : nat) (m : DatasetManager) :
  ((index < length (uploadedFiles m))%nat →
   uploadedFiles (removeFile (Z.of_nat index) m).1
   = take index (uploadedFiles m) ++ drop (S index) (uploadedFiles m)
   ∧ S (length (uploadedFiles (removeFile (Z.of_nat index) m).1))
     = length (uploadedFiles m))
  ∧ ((length (uploadedFiles m) ≤ index)%nat →
     (removeFile (Z.of_nat index) m).1 = m).
Proof.
  unfold removeFile, Js.splice1, Js.spliceStart. simpl.
  assert ((Z.of_nat index <? 0)%Z = false) as -> by (apply Z.ltb_ge; lia).
  rewrite Nat2Z.id. split.
  - intros Hlt. rewrite Nat.min_l by lia. split; [apply delete_take_drop|].
    rewrite length_delete; [lia|]. by apply lookup_lt_is_Some.
  - intros Hge. rewrite Nat.min_r by lia.
    rewrite delete_take_drop, firstn_all, drop_ge by lia.
    rewrite app_nil_r. by destruct m.
Qed.

Lemma removeFile_bounds_witness :
  let a := {| name := "a.csv"; type := "text/csv"; size := 1 |} in
  let b := {| name := "b.pdf"; type := "application/pdf"; size := 2 |} in
  let c := {| name := "c.xlsx"; type := "application/vnd.ms-excel"; size := 3 |} in
  let m := (handleFileSelect [a; b; c] constructor).1 in
  uploadedFiles (removeFile 1 m).1 = [a; c] ∧ (removeFile 3 m).1 = m.
Proof.
  intros a b c m.
  destruct (removeFile_bounds 1 m) as [H1 _].
  destruct (removeFile_bounds 3 m) as [_ H2].
  split.
  - apply H1. simpl. lia.
  - apply H2. simpl. lia.
Defined.

(** X6. Selecting one supported file and removing the entry it got gives
    back the list of uploaded files there was. *)
Theorem select_then_remove (file : File) (m : DatasetManager) :
  supported file →
  uploadedFiles
    (removeFile (Z.of_nat (length (uploadedFiles m))) (handleFileSelect [file] m).1).1
  = uploadedFiles m.
Proof.
  intros Hs%UploadFacts.isValidFileType_supported.
  unfold removeFile, Js.splice1, Js.spliceStart. simpl.
  rewrite handleFileSelect_keeps_valid. simpl. rewrite Hs.
  assert ((Z.of_nat (length (uploadedFiles m)) <? 0)%Z = false) as -> by (apply Z.ltb_ge; lia).
  rewrite Nat2Z.id, length_app. simpl. rewrite Nat.min_l by lia.
  rewrite delete_take_drop, take_app_length.
  rewrite drop_ge; [by rewrite app_nil_r|]. rewrite length_app. simpl. lia.
Qed.

Lemma select_then_remove_witness :
  let a := {| name := "a.csv"; type := "text/csv"; size := 1 |} in
  let b := {| name := "B.PDF"; type := "application/pdf"; size := 2 |} in
  let m := (handleFileSelect [a] constructor).1 in
  uploadedFiles (removeFile 1 (handleFileSelect [b] m).1).1 = [a].
Proof.
  intros a b m. apply (select_then_remove b m).
  apply (bool_decide_unpack _). vm_compute. exact I.
Defined.

(** X7. In file mode a search with uploaded files sends one request, the
    POST of all the uploaded files, in their order, to [/search-files];
    what the search box holds plays no part. In keyword mode no effect of
    the search carries a file. *)
Theorem search_by_mode (searchInput other : string) (net : Response) (m : DatasetManager) :
  (currentMode m = "files" → uploadedFiles m ≠ [] →
   List.filter isFetch (handleSearch searchInput net m).2
   = [Fetch (POST_FormData (Config.BACKEND_URL +:+ "/search-files") (uploadedFiles m))]
   ∧ handleSearch searchInput net m = handleSearch other net m)
  ∧ (currentMode m ≠ "files" →
     Forall (fun e => sentFiles e = []) (handleSearch searchInput net m).2).
Proof.
  unfold handleSearch. split.
  - intros -> Hne. simpl. split; [|done].
    unfold handleSearchWithFiles.
    destruct (uploadedFiles m) as [|f fs] eqn:E; [done|]. simpl.
    destruct net; cbn [app List.filter isFetch fst snd]; try reflexivity.
    f_equal. apply filter_none, UploadFacts.tryCatch_render_no_fetch.
  - intros Hmode%String.eqb_neq. rewrite Hmode.
    unfold handleSearchWithKeyword, keywordRequest.
    destruct (negb (Js.truthy (Js.trim searchInput))), net; simpl;
      rewrite ?UploadFacts.tryCatch_render; unfold backendError;
      repeat case_match; simpl;
      repeat (apply Forall_cons; split; [done|]); by apply Forall_nil.
Qed.

Lemma search_by_mode_witness :
  let a := {| name := "a.csv"; type := "text/csv"; size := 1 |} in
  let m := (handleFileSelect [a] constructor).1 in
  List.filter isFetch (handleSearch "ignored" NetworkFailure m).2
  = [Fetch (POST_FormData (Config.BACKEND_URL +:+ "/search-files") [a])]
  ∧ Forall (fun e => sentFiles e = [])
      (handleSearch "iris" NetworkFailure (handleModeChange "keyword" m).1).2.
Proof.
  intros a m.
  destruct (search_by_mode "ignored" EmptyString NetworkFailure m) as [H1 _].
  destruct (search_by_mode "iris" EmptyString NetworkFailure (handleModeChange "keyword" m).1)
    as [_ H2].
  split.
  - apply H1; [reflexivity | discriminate].
  - apply H2. simpl. discriminate.
Defined.






Lemma ids_mapi_from category l : ∀ i,
  map id (Js.mapi_from i (toDataset category) l)
  = map (fun k => (i + Z.of_nat k + 1)%Z) (seq 0 (length l)).
Proof.
  induction l as [|x l IH]; intros i; [done|].
  cbn [Js.mapi_from map toDataset id length seq].
  f_equal; [lia|]. rewrite IH, <- seq_shift, map_map.
  apply map_ext. intros k. lia.
Qed.

Lemma find_mapi_from category l : ∀ i k r,
  l !! k = Some r →
  List.find (fun d => (id d =? i + Z.of_nat k + 1)%Z) (Js.mapi_from i (toDataset category) l)
  = Some (toDataset category r (i + Z.of_nat k)).
Proof.
  induction l as [|x l IH]; intros i k r Hk; [done|].
  cbn [Js.mapi_from List.find toDataset id].
  destruct k as [|k]; simpl in Hk.
  - injection Hk as ->. change (Z.of_nat 0) with 0%Z.
    rewrite Z.add_0_r, Z.eqb_refl. done.
  - assert ((i + 1 =? i + Z.of_nat (S k) + 1)%Z = false) as ->
      by (apply Z.eqb_neq; lia).
    replace (i + Z.of_nat (S k) + 1)%Z with (i + 1 + Z.of_nat k + 1)%Z by lia.
    rewrite (IH (i + 1)%Z k r Hk). f_equal. f_equal. lia.
Qed.

Lemma find_mapi_from_none category l datasetId : ∀ i,
  (datasetId ≤ i ∨ i + Z.of_nat (length l) < datasetId)%Z →
  List.find (fun d => (id d =? datasetId)%Z) (Js.mapi_from i (toDataset category) l) = None.
Proof.
  induction l as [|x l IH]; intros i H; [done|].
  cbn [Js.mapi_from List.find toDataset id].
  change (length (x :: l)) with (S (length l)) in H.
  assert ((i + 1 =? datasetId)%Z = false) as -> by (apply Z.eqb_neq; lia).
  apply IH. lia.
Qed.

(** X9. The results of a search are numbered from 1 in the order of the
    answer, so [selectDataset(k)] selects the k-th record of the answer; an
    id below 1 or above the number of results selects nothing, and the
    files panel goes back to its hint. *)
Theorem results_numbered (searchInput : string) (datasets : list MarketplaceRecord)
    (message : string) (m : DatasetManager) :
  Js.blank searchInput = false →
  let m' := (handleSearchWithKeyword searchInput (Body datasets message) m).1 in
  map id (availableDatasets m')
  = map (fun k => (Z.of_nat k + 1)%Z) (seq 0 (length datasets))
  ∧ (∀ k r, datasets !! k = Some r →
       selectedDataset (selectDataset (Z.of_nat k + 1) m').1
       = Some (toDataset "Search Result" r (Z.of_nat k)))
  ∧ (∀ datasetId, (datasetId < 1 ∨ Z.of_nat (length datasets) < datasetId)%Z →
       (selectDataset datasetId m').2
       = [SetParagraph "filesList" "no-data" "Click on a dataset to view its files."]
       ∧ selectedDataset (selectDataset datasetId m').1 = None).
Proof.
  intros Hb m'. unfold selectDataset, renderFilesList. simpl. subst m'.
  rewrite UploadFacts.handleSearchWithKeyword_results by done.
  unfold Js.mapi. split; [apply (ids_mapi_from _ _ 0%Z)|]. split.
  - intros k r Hk. apply (find_mapi_from _ _ 0%Z k r Hk).
  - intros datasetId H. rewrite find_mapi_from_none by lia. done.
Qed.

Lemma results_numbered_witness :
  let m' := (handleSearchWithKeyword "titanic"
               (Body [Normalizer.sampleRecord 65; Normalizer.sampleRecord 66] EmptyString)
               (handleModeChange "keyword" constructor).1).1 in
  map id (availableDatasets m') = [1; 2]%Z
  ∧ selectedDataset (selectDataset 2 m').1
    = Some (toDataset "Search Result" (Normalizer.sampleRecord 66) 1)
  ∧ selectedDataset (selectDataset 3 m').1 = None.
Proof.
  intros m'.
  destruct (results_numbered "titanic"
              [Normalizer.sampleRecord 65; Normalizer.sampleRecord 66] EmptyString
              (handleModeChange "keyword" constructor).1 eq_refl) as (H1 & H2 & H3).
  split; [exact H1|]. split.
  - apply (H2 1%nat). reflexivity.
  - apply (H3 3%Z). simpl. lia.
Defined.

Lemma substring_all s : substring 0 (String.length s) s = s.
Proof. induction s as [|c s IH]; simpl; [done | by rewrite IH]. Qed.

Lemma substring_split s : ∀ a,
  (a ≤ String.length s)%nat →
  s = substring 0 a s +:+ substring a (String.length s - a) s.
Proof.
  induction s as [|c s IH]; intros a Ha.
  - simpl in Ha. by replace a with 0%nat by lia.
  - destruct a as [|a].
    + change (String c s = substring 0 (String.length (String c s)) (String c s)).
      by rewrite substring_all.
    + simpl in Ha. simpl substring. simpl String.length.
      rewrite JsExtra.append_cons. f_equal. apply IH. lia.
Qed.

(** [endsWith] holds of the strings that are something followed by the
    suffix. *)
Lemma endsWith_split s suffix :
  Js.endsWith s suffix = true → ∃ pre, s = pre +:+ suffix.
Proof.
  unfold Js.endsWith. intros [Hle Heq]%andb_prop.
  apply Nat.leb_le in Hle. apply String.eqb_eq in Heq.
  exists (substring 0 (String.length s - String.length suffix) s).
  rewrite <- Heq at 2.
  pose proof (substring_split s (String.length s - String.length suffix)) as H.
  replace (String.length s - (String.length s - String.length suffix))%nat
    with (String.length suffix) in H by lia.
  apply H. lia.
Qed.

Lemma hasDot_app s t : hasDot (s +:+ t) = hasDot s || hasDot t.
Proof.
  induction s as [|c s IH]; [done|].
  rewrite JsExtra.append_cons. simpl. rewrite IH. by rewrite orb_assoc.
Qed.

Lemma lastSegment_extension pre ext :
  hasDot ext = false → lastSegment (pre +:+ String "." ext) = ext.
Proof.
  intros He. induction pre as [|c pre IH].
  - change (lastSegment (String "." ext) = ext). simpl. by rewrite He.
  - rewrite JsExtra.append_cons. simpl. rewrite hasDot_app. simpl.
    rewrite orb_true_r. done.
Qed.

Lemma icon_by_extension fileName ext :
  hasDot ext = false →
  Js.endsWith (Js.toLowerCase fileName) (String "." ext) = true →
  lastSegment (Js.toLowerCase fileName) = ext.
Proof.
  intros He [pre ->]%endsWith_split. by apply lastSegment_extension.
Qed.

(** X10. [getFileIcon] gives a file with a supported extension the icon of
    that extension, whatever the case of the name and whatever dots come
    earlier in it; so every file of [uploadedFiles] is listed with one of
    the four icons of the table, never with the fallback. *)
Theorem icon_of_supported (history : list Action) (file : File) :
  file ∈ uploadedFiles (run history constructor).1 →
  getFileIcon (name file) ∈ [BarChart; PageFacingUp; Memo; ChartIncreasing]
  ∧ (Js.endsWith (Js.toLowerCase (name file)) ".csv" = true →
     getFileIcon (name file) = BarChart)
  ∧ (Js.endsWith (Js.toLowerCase (name file)) ".pdf" = true →
     getFileIcon (name file) = PageFacingUp)
  ∧ (Js.endsWith (Js.toLowerCase (name file)) ".docx" = true →
     getFileIcon (name file) = Memo)
  ∧ (Js.endsWith (Js.toLowerCase (name file)) ".xlsx" = true →
     getFileIcon (name file) = ChartIncreasing).
Proof.
  intros Hin.
  assert (Js.endsWith (Js.toLowerCase (name file)) ".csv" = true →
          getFileIcon (name file) = BarChart) as Hcsv.
  { intros H. unfold getFileIcon. by rewrite (icon_by_extension _ "csv" eq_refl H). }
  assert (Js.endsWith (Js.toLowerCase (name file)) ".pdf" = true →
          getFileIcon (name file) = PageFacingUp) as Hpdf.
  { intros H. unfold getFileIcon. by rewrite (icon_by_extension _ "pdf" eq_refl H). }
  assert (Js.endsWith (Js.toLowerCase (name file)) ".docx" = true →
          getFileIcon (name file) = Memo) as Hdocx.
  { intros H. unfold getFileIcon. by rewrite (icon_by_extension _ "docx" eq_refl H). }
  assert (Js.endsWith (Js.toLowerCase (name file)) ".xlsx" = true →
          getFileIcon (name file) = ChartIncreasing) as Hxlsx.
  { intros H. unfold getFileIcon. by rewrite (icon_by_extension _ "xlsx" eq_refl H). }
  split; [|done].
  pose proof (UploadFacts.reachable_supported history) as Hall.
  eapply Forall_forall in Hall; [|exact Hin].
  unfold supported, allowedTypes in Hall.
  apply Exists_cons in Hall as [H|Hall]; [rewrite (Hcsv H); set_solver|].
  apply Exists_cons in Hall as [H|Hall]; [rewrite (Hpdf H); set_solver|].
  apply Exists_cons in Hall as [H|Hall]; [rewrite (Hdocx H); set_solver|].
  apply Exists_cons in Hall as [H|Hall]; [rewrite (Hxlsx H); set_solver|].
  by apply Exists_nil in Hall.
Qed.

Lemma icon_of_supported_witness :
  let report := {| name := "Q3.Report.DOCX"; type := EmptyString; size := 7 |} in
  getFileIcon (name report) = Memo.
Proof.
  intros report.
  assert (report ∈ uploadedFiles (run [OnFileSelect [report]] constructor).1) as Hin.
  { change (report ∈ [report]). apply list_elem_of_In. simpl. auto. }
  destruct (icon_of_supported [OnFileSelect [report]] report Hin) as (_ & _ & _ & H & _).
  apply H. reflexivity.
Defined.

(** Names the validation turns down can still get an icon of the table, or
    something that is not an icon at all. *)
Example icons_of_other_names :
  getFileIcon "csv" = BarChart
  ∧ getFileIcon "notes.txt" = FileFolder
  ∧ getFileIcon "archive.constructor" = Inherited "constructor".
Proof. repeat split. Qed.

End UploadExtra.


(** ** The file input and the drop area *)

Module UploadInputFacts.
Import Dom Upload UploadView.

(** X22. Uploads are not de-duplicated: choosing the same supported file
    twice puts it in the list twice (the input is cleared after each
    choice so that this can be done), and a file search then sends it
    twice. A change of the input without files, like a drop without
    files, does nothing. *)
Theorem same_file_twice (file : File) (net : Response) (m : DatasetManager) :
  supported file →
  let twice := (fileInputChange [file] (fileInputChange [file] m).1).1 in
  uploadedFiles twice = uploadedFiles m ++ [file; file]
  ∧ last (fileInputChange [file] m).2 = Some (SetValue "fileInput" EmptyString)
  ∧ (uploadedFiles m = [] →
     List.filter isFetch (handleSearchWithFiles net twice).2
     = [Fetch (POST_FormData (Config.BACKEND_URL +:+ "/search-files") [file; file])])
  ∧ fileInputChange [] m = (m, [])
  ∧ handleDrop [] m = (m, []).
Proof.
  intros Hs%UploadFacts.isValidFileType_supported twice.
  assert (∀ m0, (fileInputChange [file] m0).1
                = {| availableDatasets := availableDatasets m0;
                     uploadedFiles := uploadedFiles m0 ++ [file];
                     selectedDataset := selectedDataset m0;
                     currentMode := currentMode m0 |}) as Hstep.
  { intros m0. unfold fileInputChange, handleFileSelect. simpl. by rewrite Hs. }
  assert (uploadedFiles twice = uploadedFiles m ++ [file; file]) as Htwice.
  { subst twice. rewrite !Hstep. simpl. by rewrite <- app_assoc. }
  split; [done|]. split.
  { unfold fileInputChange, handleFileSelect. simpl. rewrite Hs. simpl.
    unfold renderUploadedFiles. simpl.
    destruct (uploadedFiles m ++ [file]) as [|x l] eqn:E; [by destruct (uploadedFiles m)|].
    reflexivity. }
  split; [|done].
  intros Hempty. unfold handleSearchWithFiles. rewrite Htwice, Hempty.
  cbn [app length Nat.eqb].
  destruct net; cbn [app List.filter isFetch fst snd]; try reflexivity.
  f_equal. apply UploadExtra.filter_none, UploadFacts.tryCatch_render_no_fetch.
Qed.

Lemma same_file_twice_witness :
  let csv := {| name := "a.csv"; type := "text/csv"; size := 1 |} in
  uploadedFiles (fileInputChange [csv] (fileInputChange [csv] constructor).1).1 = [csv; csv].
Proof.
  intros csv.
  assert (supported csv) as Hs by (apply (bool_decide_unpack _); vm_compute; exact I).
  destruct (same_file_twice csv NetworkFailure constructor Hs) as [H _]. exact H.
Defined.

End UploadInputFacts.

(** ** script.js, continued *)

Module ScriptExtra.
Import Dom Script Download.

Lemma idsOf_defined ds : idsOf (map Some ds) = map id ds.
Proof. unfold idsOf. induction ds as [|d ds IH]; simpl; [done | by f_equal]. Qed.

Lemma others_absent datasetId ds : datasetId ∉ map id ds → others datasetId ds = ds.
Proof.
  unfold others. induction ds as [|d ds IH]; simpl; intros H; [done|].
  apply not_elem_of_cons in H as [Hne H].
  assert ((id d =? datasetId)%Z = false) as -> by (apply Z.eqb_neq; congruence).
  simpl. by rewrite IH.
Qed.

Lemma findIndex_absent datasetId ds :
  datasetId ∉ map id ds → findIndex datasetId (map Some ds) = Minus1.
Proof.
  induction ds as [|d ds IH]; simpl; intros H; [done|].
  apply not_elem_of_cons in H as [Hne H].
  assert ((id d =? datasetId)%Z = false) as -> by (apply Z.eqb_neq; congruence).
  by rewrite IH.
Qed.

Lemma findIndex_absent_undefined datasetId ds :
  datasetId ∉ map id ds → findIndex datasetId (map Some ds ++ [None]) = TypeError.
Proof.
  induction ds as [|d ds IH]; simpl; intros H; [done|].
  apply not_elem_of_cons in H as [Hne H].
  assert ((id d =? datasetId)%Z = false) as -> by (apply Z.eqb_neq; congruence).
  by rewrite IH.
Qed.

(** With distinct ids, the entry [findIndex] finds is the only one with
    the id, whatever follows the defined entries. *)
Lemma findIndex_present datasetId ds tail :
  NoDup (map id ds) → datasetId ∈ map id ds →
  ∃ i, findIndex datasetId (map Some ds ++ tail) = Index i
       ∧ delete i (map Some ds ++ tail) = map Some (others datasetId ds) ++ tail.
Proof.
  unfold others. induction ds as [|d ds IH]; simpl; intros Hnd Hin.
  - by apply elem_of_nil in Hin.
  - apply NoDup_cons in Hnd as [Hd Hnd].
    destruct (id d =? datasetId)%Z eqn:E.
    + apply Z.eqb_eq in E. exists 0%nat. split; [done|]. simpl.
      rewrite E in Hd. fold (others datasetId ds). by rewrite others_absent.
    + apply Z.eqb_neq in E. apply elem_of_cons in Hin as [Hin|Hin]; [congruence|].
      destruct (IH Hnd Hin) as (i & Hi & Hdel). exists (S i). rewrite Hi.
      split; [done|]. simpl. by rewrite Hdel.
Qed.

Lemma filterOut_defined datasetId ds :
  filterOut datasetId (map Some ds) = Some (map Some (others datasetId ds)).
Proof.
  unfold others. induction ds as [|d ds IH]; simpl; [done|].
  rewrite IH. by destruct (id d =? datasetId)%Z.
Qed.

Lemma filterOut_undefined datasetId l : None ∈ l → filterOut datasetId l = None.
Proof.
  induction l as [|[d|] l IH]; simpl; intros H.
  - by apply elem_of_nil in H.
  - apply elem_of_cons in H as [H|H]; [done|]. by rewrite IH.
  - done.
Qed.

Lemma descriptionsOf_defined ds : descriptionsOf (map Some ds) = Some (map description ds).
Proof. induction ds as [|d ds IH]; simpl; [done | by rewrite IH]. Qed.

Lemma descriptionsOf_undefined l : None ∈ l → descriptionsOf l = None.
Proof.
  induction l as [|[d|] l IH]; simpl; intros H.
  - by apply elem_of_nil in H.
  - apply elem_of_cons in H as [H|H]; [done|]. by rewrite IH.
  - done.
Qed.

Lemma others_no_id datasetId ds : datasetId ∉ map id (others datasetId ds).
Proof.
  unfold others. intros (d & Hid & Hd%list_elem_of_In%filter_In)%list_elem_of_fmap.
  destruct Hd as [_ Hd]. apply negb_true_iff, Z.eqb_neq in Hd. congruence.
Qed.

Lemma findIndex_appended datasetId ds d :
  datasetId ∉ map id ds → id d = datasetId →
  findIndex datasetId (map Some ds ++ [Some d]) = Index (length ds).
Proof.
  intros H Hd. induction ds as [|x ds IH]; simpl.
  - by rewrite Hd, Z.eqb_refl.
  - simpl in H. apply not_elem_of_cons in H as [Hne H].
    assert ((id x =? datasetId)%Z = false) as -> by (apply Z.eqb_neq; congruence).
    by rewrite IH.
Qed.

Lemma delete_appended {A} (l : list A) x : delete (length l) (l ++ [x]) = l.
Proof. induction l as [|y l IH]; simpl; [done | by rewrite IH]. Qed.

(** X11. Adding a dataset that was not selected and removing it again
    gives back the selection there was, whether or not the id is among the
    search results. *)
Theorem add_then_remove (datasetId : Z) (ds : list Dataset) (m : DatasetManager) :
  downloadDatasets m = map Some ds →
  datasetId ∉ map id ds →
  downloadDatasets (removeFromDownloadList datasetId (addToDownloadList datasetId m).1).1
  = downloadDatasets m.
Proof.
  intros Hl Hid. unfold addToDownloadList.
  destruct (findAvailable datasetId m) as [d|] eqn:A.
  - rewrite Hl, (findIndex_absent _ _ Hid). simpl.
    unfold removeFromDownloadList. simpl.
    replace (map Some ds ++ [Some d]) with (map Some (ds ++ [d])) by (by rewrite map_app).
    rewrite filterOut_defined. simpl. f_equal.
    unfold others. rewrite List.filter_app. fold (others datasetId ds).
    rewrite (others_absent _ _ Hid). simpl.
    apply ScriptFacts.findAvailable_id in A. rewrite A, Z.eqb_refl. simpl.
    by rewrite app_nil_r.
  - simpl. unfold removeFromDownloadList. rewrite Hl, filterOut_defined. simpl.
    by rewrite (others_absent _ _ Hid).
Qed.

Lemma add_then_remove_witness :
  let iris := {| id := 1; name := "Iris"; description := "uciml/iris";
                 category := "Kaggle Dataset" |} in
  let wine := {| id := 2; name := "Wine"; description := "uciml/wine";
                 category := "Kaggle Dataset" |} in
  let m := {| availableDatasets := [iris; wine]; downloadDatasets := [Some iris] |} in
  downloadDatasets (removeFromDownloadList 2 (addToDownloadList 2 m).1).1 = [Some iris].
Proof.
  intros iris wine m.
  apply (add_then_remove 2 [iris] m); [reflexivity|].
  apply (bool_decide_unpack _). vm_compute. exact I.
Defined.

(** X12. Ticking and unticking a search result that was not selected gives
    back the selection there was. For an id that is not among the search
    results the first toggle appends [undefined] instead and the second
    throws, so the entry stays. *)
Theorem toggle_twice_restores (datasetId : Z) (ds : list Dataset) (m : DatasetManager) :
  downloadDatasets m = map Some ds →
  datasetId ∉ map id ds →
  (is_Some (findAvailable datasetId m) →
   downloadDatasets
     (toggleDatasetSelection datasetId (toggleDatasetSelection datasetId m).1).1
   = downloadDatasets m)
  ∧ (findAvailable datasetId m = None →
     downloadDatasets (toggleDatasetSelection datasetId m).1 = map Some ds ++ [None]
     ∧ toggleDatasetSelection datasetId (toggleDatasetSelection datasetId m).1
       = ((toggleDatasetSelection datasetId m).1, [Uncaught "TypeError"])).
Proof.
  intros Hl Hid. split.
  - intros [d A]. pose proof (ScriptFacts.findAvailable_id _ _ _ A) as Hd.
    unfold toggleDatasetSelection at 2. rewrite Hl, (findIndex_absent _ _ Hid), A.
    unfold toggleDatasetSelection. simpl.
    rewrite (findIndex_appended _ _ _ Hid Hd). simpl.
    rewrite <- (length_map Some ds). by rewrite delete_appended.
  - intros A. unfold toggleDatasetSelection at 1 3 4.
    rewrite Hl, (findIndex_absent _ _ Hid), A. simpl. split; [done|].
    unfold toggleDatasetSelection. simpl.
    by rewrite (findIndex_absent_undefined _ _ Hid).
Qed.

Lemma toggle_twice_restores_witness :
  let iris := {| id := 1; name := "Iris"; description := "uciml/iris";
                 category := "Kaggle Dataset" |} in
  let wine := {| id := 2; name := "Wine"; description := "uciml/wine";
                 category := "Kaggle Dataset" |} in
  let m := {| availableDatasets := [iris; wine]; downloadDatasets := [Some iris] |} in
  downloadDatasets (toggleDatasetSelection 2 (toggleDatasetSelection 2 m).1).1 = [Some iris]
  ∧ downloadDatasets (toggleDatasetSelection 7 m).1 = [Some iris; None].
Proof.
  intros iris wine m.
  assert (2%Z ∉ map id [iris]) as H2 by (apply (bool_decide_unpack _); vm_compute; exact I).
  assert (7%Z ∉ map id [iris]) as H7 by (apply (bool_decide_unpack _); vm_compute; exact I).
  destruct (toggle_twice_restores 2 [iris] m eq_refl H2) as [Ha _].
  destruct (toggle_twice_restores 7 [iris] m eq_refl H7) as [_ Hb].
  split.
  - apply Ha. by exists wine.
  - by destruct (Hb eq_refl) as [Hb1 _].
Defined.

(** X13. On a selection without [undefined] entries [removeFromDownloadList]
    takes out every entry with the id and keeps the others in their order;
    the id is not selected afterwards, and removing it a second time
    changes nothing more. *)
Theorem remove_from_selection (datasetId : Z) (ds : list Dataset) (m : DatasetManager) :
  downloadDatasets m = map Some ds →
  downloadDatasets (removeFromDownloadList datasetId m).1 = map Some (others datasetId ds)
  ∧ (datasetId ∉ selectedIds (removeFromDownloadList datasetId m).1)
  ∧ (removeFromDownloadList datasetId (removeFromDownloadList datasetId m).1).1
    = (removeFromDownloadList datasetId m).1.
Proof.
  intros Hl. unfold removeFromDownloadList at 1 2 4 5.
  rewrite Hl, filterOut_defined. simpl. split; [done|]. split.
  - unfold selectedIds. simpl. rewrite idsOf_defined. apply others_no_id.
  - unfold removeFromDownloadList. simpl. rewrite filterOut_defined. simpl.
    unfold withDownloads. simpl. f_equal. f_equal.
    apply others_absent, others_no_id.
Qed.

Lemma remove_from_selection_witness :
  let iris := {| id := 1; name := "Iris"; description := "uciml/iris";
                 category := "Kaggle Dataset" |} in
  let wine := {| id := 2; name := "Wine"; description := "uciml/wine";
                 category := "Kaggle Dataset" |} in
  let m := {| availableDatasets := []; downloadDatasets := [Some iris; Some wine] |} in
  downloadDatasets (removeFromDownloadList 1 m).1 = [Some wine].
Proof.
  intros iris wine m.
  destruct (remove_from_selection 1 [iris; wine] m eq_refl) as [H _]. exact H.
Defined.

(** X14. Once the selection holds an [undefined] entry, nothing can be
    removed from it: [removeFromDownloadList] throws for every id and
    leaves the manager as it is, and [handleDownload] sends no request and
    reports an error. [clearAll] still empties the selection. *)
Theorem undefined_entry_blocks (datasetId : Z) (net : Download.Response)
    (m : DatasetManager) :
  None ∈ downloadDatasets m →
  removeFromDownloadList datasetId m = (m, [Uncaught "TypeError"])
  ∧ handleDownload net m = [downloadError]
  ∧ downloadDatasets (clearAll m).1 = [].
Proof.
  intros Hin. split; [|split; [|done]].
  - unfold removeFromDownloadList. by rewrite (filterOut_undefined _ _ Hin).
  - unfold handleDownload. rewrite (descriptionsOf_undefined _ Hin).
    destruct (downloadDatasets m); [by apply elem_of_nil in Hin | done].
Qed.

Lemma undefined_entry_blocks_witness :
  let m := (toggleDatasetSelection 9 constructor).1 in
  removeFromDownloadList 9 m = (m, [Uncaught "TypeError"])
  ∧ handleDownload Download.NetworkFailure m = [downloadError].
Proof.
  intros m.
  assert (None ∈ downloadDatasets m) as Hin.
  { change (None ∈ [@None Dataset]). apply list_elem_of_In. simpl. auto. }
  destruct (undefined_entry_blocks 9 Download.NetworkFailure m Hin) as (H1 & H2 & _).
  exact (conj H1 H2).
Defined.

Lemma delete_defined i (ds : list Dataset) : delete i (map Some ds) = map Some (delete i ds).
Proof.
  revert i. induction ds as [|d ds IH]; intros [|i]; simpl; try done. by rewrite IH.
Qed.

Lemma findIndex_Minus1_defined datasetId l :
  findIndex datasetId l = Minus1 → ∃ ds, l = map Some ds.
Proof.
  induction l as [|[d|] l IH]; simpl; intros H.
  - by exists [].
  - destruct (id d =? datasetId)%Z; [done|].
    destruct (findIndex datasetId l); try done.
    destruct (IH eq_refl) as [ds ->]. by exists (d :: ds).
  - done.
Qed.

Lemma filterOut_Some_defined datasetId l r :
  filterOut datasetId l = Some r → ∃ ds, l = map Some ds.
Proof.
  revert r. induction l as [|[d|] l IH]; simpl; intros r H.
  - by exists [].
  - destruct (filterOut datasetId l) as [r'|]; [|done].
    destruct (IH r' eq_refl) as [ds ->]. by exists (d :: ds).
  - done.
Qed.

Lemma findIndex_Index_delete datasetId l i :
  undefinedLast l → findIndex datasetId l = Index i → undefinedLast (delete i l).
Proof.
  intros [ds [->| ->]] Hi.
  - exists (delete i ds). left. apply delete_defined.
  - destruct (ScriptFacts.findIndex_Index _ _ _ Hi) as (d & Hl & _).
    assert (i < length ds)%nat as Hlt.
    { destruct (decide (i < length ds)%nat) as [|Hge]; [done|].
      rewrite lookup_app_r in Hl by (rewrite length_map; lia).
      rewrite length_map in Hl.
      destruct (i - length ds)%nat as [|j]; simpl in Hl; [done|].
      by destruct j. }
    exists (delete i ds). right.
    rewrite delete_take_drop, take_app_le, drop_app_le by (rewrite length_map; lia).
    rewrite <- delete_defined, delete_take_drop. by rewrite <- app_assoc.
Qed.

Lemma perform_undefinedLast a m :
  undefinedLast (downloadDatasets m) → undefinedLast (downloadDatasets (perform a m).1).
Proof.
  intros Hu. destruct a as [datasetId|datasetId|datasetId| |searchInput net]; simpl.
  - unfold toggleDatasetSelection.
    destruct (findIndex datasetId (downloadDatasets m)) as [i| |] eqn:F; simpl; [|  |done].
    + by eapply findIndex_Index_delete.
    + destruct (findIndex_Minus1_defined _ _ F) as [ds ->].
      destruct (findAvailable datasetId m) as [d|].
      * exists (ds ++ [d]). left. by rewrite map_app.
      * exists ds. by right.
  - unfold addToDownloadList. destruct (findAvailable datasetId m) as [d|]; [|done].
    destruct (findIndex datasetId (downloadDatasets m)) as [i| |] eqn:F; simpl; try done.
    destruct (findIndex_Minus1_defined _ _ F) as [ds ->].
    exists (ds ++ [d]). left. by rewrite map_app.
  - unfold removeFromDownloadList.
    destruct (filterOut datasetId (downloadDatasets m)) as [r|] eqn:F; simpl; [|done].
    destruct (filterOut_Some_defined _ _ _ F) as [ds E]. rewrite E, filterOut_defined in F.
    injection F as <-. eexists. by left.
  - exists []. by left.
  - by rewrite ScriptFacts.handleSearch_downloads.
Qed.

Lemma reachable_undefinedLast history :
  undefinedLast (downloadDatasets (run history constructor).1).
Proof.
  assert (∀ m, undefinedLast (downloadDatasets m) →
               undefinedLast (downloadDatasets (run history m).1)) as H.
  { induction history as [|a rest IH]; intros m Hm; simpl; [done|].
    pose proof (perform_undefinedLast a m Hm) as H1.
    destruct (perform a m) as [m1 e1]. specialize (IH m1 H1).
    by destruct (run rest m1). }
  apply H. exists []. by left.
Qed.

(** X15. Whatever the user does, the selection holds at most one
    [undefined] entry, and it holds it last. So unticking a selected
    dataset always finds its entry before reaching [undefined]: the toggle
    does not throw before it has taken the entry out, and the id is not
    selected afterwards. *)
Theorem selection_shape (history : list Action) (datasetId : Z) :
  let m := (run history constructor).1 in
  undefinedLast (downloadDatasets m)
  ∧ (datasetId ∈ selectedIds m →
     findIndex datasetId (downloadDatasets m) ≠ TypeError
     ∧ (datasetId ∉ selectedIds (toggleDatasetSelection datasetId m).1)
     ∧ S (length (downloadDatasets (toggleDatasetSelection datasetId m).1))
       = length (downloadDatasets m)).
Proof.
  intros m. pose proof (reachable_undefinedLast history) as Hu.
  pose proof (ScriptFacts.reachable_distinct history) as Hnd.
  fold m in Hu, Hnd. split; [done|]. intros Hin.
  unfold selectedIds in *. destruct Hu as [ds Hl].
  assert (∃ tail, downloadDatasets m = map Some ds ++ tail ∧ idsOf tail = []) as (tail & E & Ht).
  { destruct Hl as [->| ->]; [exists [] | exists [None]]; by rewrite ?app_nil_r. }
  rewrite E, ScriptFacts.idsOf_app, Ht, app_nil_r, idsOf_defined in Hin, Hnd.
  destruct (findIndex_present datasetId ds tail Hnd Hin) as (i & Hi & Hdel).
  unfold toggleDatasetSelection. rewrite E, Hi. simpl. split; [done|]. split.
  - rewrite Hdel, ScriptFacts.idsOf_app, Ht, app_nil_r, idsOf_defined. apply others_no_id.
  - destruct (ScriptFacts.findIndex_Index _ _ _ Hi) as (d & Hd & _).
    rewrite length_delete by eauto. apply lookup_lt_Some in Hd. lia.
Qed.

Lemma selection_shape_witness :
  let iris := Dom.Body [Normalizer.sampleRecord 65] EmptyString in
  let history := [OnSearch "iris" iris; OnToggle 1; OnToggle 5] in
  downloadDatasets (run history constructor).1
  = [Some (toDataset (Normalizer.sampleRecord 65) 0); None]
  ∧ (1%Z ∉ selectedIds (toggleDatasetSelection 1 (run history constructor).1).1).
Proof.
  intros iris history. split; [reflexivity|].
  destruct (selection_shape history 1) as [_ H].
  assert (1%Z ∈ selectedIds (run history constructor).1) as Hin.
  { apply (bool_decide_unpack _). vm_compute. exact I. }
  destruct (H Hin) as (_ & Hout & _). exact Hout.
Defined.

Lemma render_undefined m :
  None ∈ downloadDatasets m → renderDownloadDatasets m = [Uncaught "TypeError"].
Proof.
  unfold renderDownloadDatasets. intros Hin.
  assert (forallb (fun d : option Dataset => match d with Some _ => true | None => false end)
            (downloadDatasets m) = false) as Hf.
  { induction (downloadDatasets m) as [|[d|] l IH]; simpl.
    - by apply elem_of_nil in Hin.
    - apply elem_of_cons in Hin as [Hin|Hin]; [done | by apply IH].
    - done. }
  destruct (downloadDatasets m) as [|x l]; [by apply elem_of_nil in Hin|].
  by rewrite Hf.
Qed.

(** X16. An [undefined] entry gets into the selection in one way only:
    [toggleDatasetSelection] with an id that is neither among the search
    results nor selected, which appends it and then fails to render. Every
    other action on a selection without [undefined] entries leaves it
    without them; [addToDownloadList] in particular checks what [find]
    gave. *)
Theorem undefined_only_by_toggle (a : Action) (ds : list Dataset) (m : DatasetManager) :
  downloadDatasets m = map Some ds →
  (∀ datasetId,
     findAvailable datasetId m = None → datasetId ∉ map id ds →
     toggleDatasetSelection datasetId m
     = (withDownloads (map Some ds ++ [None]) m, [Uncaught "TypeError"]))
  ∧ ((∀ datasetId, a = OnToggle datasetId →
        is_Some (findAvailable datasetId m) ∨ datasetId ∈ map id ds) →
     ∃ ds', downloadDatasets (perform a m).1 = map Some ds').
Proof.
  intros Hl. split.
  - intros datasetId A Hid. unfold toggleDatasetSelection.
    rewrite Hl, (findIndex_absent _ _ Hid), A. cbv zeta.
    rewrite render_undefined; [done|].
    simpl. apply elem_of_app. right. apply list_elem_of_In. simpl. auto.
  - intros Ha. destruct a as [datasetId|datasetId|datasetId| |searchInput net]; simpl.
    + unfold toggleDatasetSelection.
      destruct (findIndex datasetId (downloadDatasets m)) as [i| |] eqn:F; simpl.
      * rewrite Hl, delete_defined. eauto.
      * destruct (Ha datasetId eq_refl) as [[d A]|Hin].
        -- rewrite A, Hl. exists (ds ++ [d]). by rewrite map_app.
        -- rewrite Hl in F. apply ScriptFacts.findIndex_Minus1 in F.
           by rewrite idsOf_defined in F.
      * eauto.
    + unfold addToDownloadList. destruct (findAvailable datasetId m) as [d|]; [|eauto].
      destruct (findIndex datasetId (downloadDatasets m)); simpl; eauto.
      rewrite Hl. exists (ds ++ [d]). by rewrite map_app.
    + unfold removeFromDownloadList. rewrite Hl, filterOut_defined. simpl. eauto.
    + by exists [].
    + rewrite ScriptFacts.handleSearch_downloads. eauto.
Qed.

Lemma undefined_only_by_toggle_witness :
  let iris := {| id := 1; name := "Iris"; description := "uciml/iris";
                 category := "Kaggle Dataset" |} in
  let m := {| availableDatasets := [iris]; downloadDatasets := [Some iris] |} in
  toggleDatasetSelection 4 m
  = ({| availableDatasets := [iris]; downloadDatasets := [Some iris; None] |},
     [Uncaught "TypeError"])
  ∧ ∃ ds', downloadDatasets (perform (OnDrop 4) m).1 = map Some ds'.
Proof.
  intros iris m.
  destruct (undefined_only_by_toggle (OnDrop 4) [iris] m eq_refl) as [H1 H2].
  split.
  - apply (H1 4%Z); [reflexivity|].
    apply (bool_decide_unpack _). vm_compute. exact I.
  - apply H2. intros datasetId [=].
Defined.

(** X17. [handleDownload] asks for a selection first: with nothing
    selected it alerts and sends nothing. With a selection without
    [undefined] entries it sends one request, the POST to [/download] of
    the descriptions of the selected datasets in the order of the
    selection, and then one alert, with the answer or with the error. *)
Theorem download_request (net : Download.Response) (ds : list Dataset)
    (m : DatasetManager) :
  downloadDatasets m = map Some ds →
  (ds = [] →
   handleDownload net m = [Download.Alert "Please select at least one dataset to download."])
  ∧ (ds ≠ [] →
     ∃ message,
       handleDownload net m
       = [PostJson (Config.BACKEND_URL +:+ "/download") (map description ds);
          Download.Alert message]).
Proof.
  intros Hl. unfold handleDownload. rewrite Hl, descriptionsOf_defined. split.
  - by intros ->.
  - intros Hne. destruct ds as [|d ds]; [done|]. simpl.
    destruct net; eexists; reflexivity.
Qed.

Lemma download_request_witness :
  let iris := {| id := 1; name := "Iris"; description := "uciml/iris";
                 category := "Kaggle Dataset" |} in
  let wine := {| id := 2; name := "Wine"; description := "uciml/wine";
                 category := "Kaggle Dataset" |} in
  let m := {| availableDatasets := [iris; wine];
              downloadDatasets := [Some wine; Some iris] |} in
  ∃ message,
    handleDownload (Download.Body "2" "queued") m
    = [PostJson "https://data-lakes-management.onrender.com/download"
         ["uciml/wine"; "uciml/iris"];
       Download.Alert message].
Proof.
  intros iris wine m.
  destruct (download_request (Download.Body "2" "queued") [wine; iris] m eq_refl) as [_ H].
  apply H. discriminate.
Defined.

(** X18. A search replaces the results and numbers them from 1 again, and
    leaves the selection alone; a dataset selected earlier keeps its old
    number. Ticking the new result of that number therefore takes the
    earlier dataset out of the selection and does not put the new one
    in. *)
Theorem selection_survives_search (datasetId : Z) (ds : list Dataset)
    (searchInput : string) (datasets : list MarketplaceRecord) (message : string)
    (m : DatasetManager) :
  downloadDatasets m = map Some ds →
  NoDup (map id ds) →
  datasetId ∈ map id ds →
  Js.blank searchInput = false →
  let m' := (handleSearch searchInput (Dom.Body datasets message) m).1 in
  availableDatasets m' = Js.mapi toDataset datasets
  ∧ downloadDatasets m' = map Some ds
  ∧ downloadDatasets (toggleDatasetSelection datasetId m').1
    = map Some (others datasetId ds).
Proof.
  intros Hl Hnd Hin Hb m'.
  assert (m' = {| availableDatasets := Js.mapi toDataset datasets;
                  downloadDatasets := downloadDatasets m |}) as ->.
  { subst m'. unfold handleSearch.
    destruct (Js.truthy (Js.trim searchInput)) eqn:E; [done|].
    apply JsFacts.truthy_false, JsFacts.trim_empty_iff in E. congruence. }
  simpl. split; [done|]. split; [done|].
  destruct (findIndex_present datasetId ds [] Hnd Hin) as (i & Hi & Hdel).
  rewrite !app_nil_r in Hi, Hdel.
  unfold toggleDatasetSelection. simpl. rewrite Hl, Hi. simpl.
  by rewrite Hdel, app_nil_r.
Qed.

Lemma selection_survives_search_witness :
  let iris := {| id := 1; name := "Iris"; description := "uciml/iris";
                 category := "Kaggle Dataset" |} in
  let m := {| availableDatasets := [iris]; downloadDatasets := [Some iris] |} in
  let m' := (handleSearch "titanic"
               (Dom.Body [Normalizer.sampleRecord 65] EmptyString) m).1 in
  downloadDatasets (toggleDatasetSelection 1 m').1 = [].
Proof.
  intros iris m m'.
  assert (NoDup (map id [iris])) as Hnd by (apply (bool_decide_unpack _); vm_compute; exact I).
  assert (1%Z ∈ map id [iris]) as Hin by (apply (bool_decide_unpack _); vm_compute; exact I).
  destruct (selection_survives_search 1 [iris] "titanic" [Normalizer.sampleRecord 65]
              EmptyString m eq_refl Hnd Hin eq_refl) as (_ & _ & H).
  exact H.
Defined.

End ScriptExtra.

(** ** The third version of the script *)

Module CombinedFacts.
Import Dom Combined.

Lemma valid_supported f : isValidFileType f = true ↔ Upload.supported f.
Proof. apply UploadFacts.isValidFileType_supported. Qed.

Lemma filesOfSelection_app l1 l2 :
  filesOfSelection (l1 ++ l2) = filesOfSelection l1 ++ filesOfSelection l2.
Proof. unfold filesOfSelection. apply omap_app. Qed.

Lemma filesOfSelection_sublist l1 l2 :
  sublist l1 l2 → sublist (filesOfSelection l1) (filesOfSelection l2).
Proof.
  induction 1 as [|x l1 l2 _ IH|x l1 l2 _ IH]; simpl.
  - constructor.
  - destruct x as [d|]; simpl; [|done]. destruct (file d); simpl; [by constructor | done].
  - destruct x as [d|]; simpl; [|done]. destruct (file d); simpl; [by constructor | done].
Qed.

Lemma filterOut_sublist datasetId l r : filterOut datasetId l = Some r → sublist r l.
Proof.
  revert r. induction l as [|[d|] l IH]; simpl; intros r H.
  - injection H as <-. constructor.
  - destruct (filterOut datasetId l) as [r'|]; [|done]. injection H as <-.
    destruct (id d =? datasetId)%Z; constructor; by apply IH.
  - done.
Qed.

Lemma findAvailable_file datasetId m d f :
  findAvailable datasetId m = Some d → file d = Some f → f ∈ filesOf (availableDatasets m).
Proof.
  unfold findAvailable, filesOf. intros [Hin _]%find_some Hf.
  apply list_elem_of_omap. exists d. split; [by apply list_elem_of_In | done].
Qed.

Lemma filesOf_toDataset category datasets : ∀ i,
  filesOf (Js.mapi_from i (toDataset category) datasets) = [].
Proof. induction datasets as [|x l IH]; intros i; simpl; [done | apply IH]. Qed.

Lemma filesOf_uploaded fmt fs : ∀ i,
  filesOf (Js.mapi_from i (uploadedDataset fmt) fs) = fs.
Proof.
  induction fs as [|x l IH]; intros i; simpl; [done|]. unfold filesOf in *. simpl.
  f_equal. apply IH.
Qed.

Lemma saved_page effects : saved (map Page effects) = [].
Proof. induction effects as [|e l IH]; simpl; [done | apply IH]. Qed.

Lemma saved_app e1 e2 : saved (e1 ++ e2) = saved e1 ++ saved e2.
Proof. unfold saved. apply omap_app. Qed.

Lemma saved_saves fs : saved (map Save fs) = fs.
Proof. induction fs as [|f l IH]; simpl; [done|]. unfold saved in *. simpl. by rewrite IH. Qed.

Lemma selectedFiles_selection l fs : selectedFiles l = Some fs → fs = filesOfSelection l.
Proof.
  revert fs. induction l as [|[d|] l IH]; simpl; intros fs H.
  - by injection H as <-.
  - destruct (selectedFiles l) as [r|]; [|done]. injection H as <-.
    unfold filesOfSelection in *. simpl. rewrite <- (IH r eq_refl).
    by destruct (file d).
  - done.
Qed.

(** What [handleDownload] saves: nothing, or the files of the selection in
    its order. *)
Lemma saved_download m :
  saved (handleDownload m) = []
  ∨ saved (handleDownload m) = filesOfSelection (downloadDatasets m).
Proof.
  unfold handleDownload. destruct (Nat.eqb _ 0); [by left|].
  destruct (selectedFiles (downloadDatasets m)) as [fs|] eqn:E; [|by left].
  apply selectedFiles_selection in E. destruct fs as [|f fs]; [by left|]. right.
  rewrite saved_app, saved_saves. simpl. by rewrite app_nil_r.
Qed.

Lemma handleFileSelect_uploads files m :
  (handleFileSelect files m).1
  = withUploads (uploadedFiles m ++ List.filter isValidFileType files) m.
Proof.
  unfold handleFileSelect.
  destruct (List.filter isValidFileType files) as [|f fs] eqn:E; simpl; [|done].
  rewrite app_nil_r. by destruct m.
Qed.

Lemma handleSearch_state searchInput net m :
  (handleSearch searchInput net m).1 = m
  ∨ ∃ category datasets,
      (handleSearch searchInput net m).1
      = withAvailable (Js.mapi (toDataset category) datasets) m.
Proof.
  unfold handleSearch, handleSearchWithFiles, handleSearchWithKeyword.
  repeat case_match; simpl; eauto.
Qed.

Lemma perform_carried fmt a m :
  carried Upload.supported m → carried Upload.supported (perform fmt a m).1.
Proof.
  intros (Hu & Ha & Hd).
  destruct a as [files|index|mode|searchInput net|datasetId|datasetId|datasetId| | |];
    simpl.
  - rewrite handleFileSelect_uploads. split; [|done]. simpl.
    apply Forall_app. split; [done|]. apply Forall_forall.
    intros f Hf%list_elem_of_In%filter_In. apply valid_supported, Hf.
  - split; [|done]. simpl.
    eapply JsFacts.Forall_of_sublist; [apply JsFacts.splice1_sublist | done].
  - done.
  - destruct (handleSearch_state searchInput net m) as [->|(c & ds & ->)]; [done|].
    split; [done|]. split; [|done]. simpl. unfold Js.mapi.
    rewrite filesOf_toDataset. constructor.
  - unfold toggleDatasetSelection.
    destruct (findIndex datasetId (downloadDatasets m)) as [[i|]|] eqn:F; simpl; try done.
    + split; [done|]. split; [done|]. simpl.
      eapply JsFacts.Forall_of_sublist; [|exact Hd].
      apply filesOfSelection_sublist, sublist_delete.
    + split; [done|]. split; [done|]. simpl.
      rewrite filesOfSelection_app. apply Forall_app. split; [done|].
      destruct (findAvailable datasetId m) as [d|] eqn:A; [|constructor].
      unfold filesOfSelection. simpl. destruct (file d) as [f|] eqn:Ef; [|constructor].
      apply Forall_cons; split; [|by apply Forall_nil].
      eapply Forall_forall in Ha; [exact Ha|].
      by eapply findAvailable_file.
  - unfold addToDownloadList. destruct (findAvailable datasetId m) as [d|] eqn:A; [|done].
    destruct (findIndex datasetId (downloadDatasets m)) as [[i|]|]; simpl; try done.
    split; [done|]. split; [done|]. simpl.
    rewrite filesOfSelection_app. apply Forall_app. split; [done|].
    unfold filesOfSelection. simpl. destruct (file d) as [f|] eqn:Ef; [|constructor].
    apply Forall_cons; split; [|by apply Forall_nil].
      eapply Forall_forall in Ha; [exact Ha|].
    by eapply findAvailable_file.
  - unfold removeFromDownloadList.
    destruct (filterOut datasetId (downloadDatasets m)) as [r|] eqn:F; simpl; [|done].
    split; [done|]. split; [done|]. simpl.
    eapply JsFacts.Forall_of_sublist; [|exact Hd].
    by eapply filesOfSelection_sublist, filterOut_sublist.
  - repeat split; constructor.
  - done.
  - split; [done|]. split; [|done]. simpl. unfold Js.mapi. by rewrite filesOf_uploaded.
Qed.

Lemma perform_saved fmt a m :
  carried Upload.supported m → Forall Upload.supported (saved (perform fmt a m).2).
Proof.
  intros (Hu & Ha & Hd).
  destruct a; simpl; rewrite ?saved_page; try constructor.
  destruct (saved_download m) as [->| ->]; [constructor | done].
Qed.

Lemma perform_fileless fmt a m :
  wired a = true → fileless m →
  fileless (perform fmt a m).1 ∧ saved (perform fmt a m).2 = [].
Proof.
  intros Hw [Ha Hd].
  destruct a as [files|index|mode|searchInput net|datasetId|datasetId|datasetId| | |];
    simpl; rewrite ?saved_page.
  - by rewrite handleFileSelect_uploads.
  - done.
  - done.
  - split; [|done].
    destruct (handleSearch_state searchInput net m) as [->|(c & ds & ->)]; [done|].
    split; [|done]. simpl. unfold Js.mapi. apply filesOf_toDataset.
  - split; [|done]. unfold toggleDatasetSelection.
    destruct (findIndex datasetId (downloadDatasets m)) as [[i|]|] eqn:F; simpl; try done.
    + split; [done|]. simpl.
      pose proof (filesOfSelection_sublist _ _ (sublist_delete (downloadDatasets m) i)) as H.
      rewrite Hd in H. by apply sublist_nil_r in H.
    + split; [done|]. simpl. rewrite filesOfSelection_app, Hd. simpl.
      destruct (findAvailable datasetId m) as [d|] eqn:A; [|done].
      unfold filesOfSelection. simpl. destruct (file d) as [f|] eqn:Ef; [|done].
      pose proof (findAvailable_file _ _ _ _ A Ef) as Hin. rewrite Ha in Hin.
      by apply elem_of_nil in Hin.
  - split; [|done]. unfold addToDownloadList.
    destruct (findAvailable datasetId m) as [d|] eqn:A; [|done].
    destruct (findIndex datasetId (downloadDatasets m)) as [[i|]|]; simpl; try done.
    split; [done|]. simpl. rewrite filesOfSelection_app, Hd. simpl.
    unfold filesOfSelection. simpl. destruct (file d) as [f|] eqn:Ef; [|done].
    pose proof (findAvailable_file _ _ _ _ A Ef) as Hin. rewrite Ha in Hin.
    by apply elem_of_nil in Hin.
  - split; [|done]. unfold removeFromDownloadList.
    destruct (filterOut datasetId (downloadDatasets m)) as [r|] eqn:F; simpl; [|done].
    split; [done|]. simpl.
    pose proof (filesOfSelection_sublist _ _ (filterOut_sublist _ _ _ F)) as H.
    rewrite Hd in H. by apply sublist_nil_r in H.
  - done.
  - split; [done|]. destruct (saved_download m) as [->| ->]; done.
  - done.
Qed.

Lemma run_carried fmt history : ∀ m,
  carried Upload.supported m →
  carried Upload.supported (run fmt history m).1
  ∧ Forall Upload.supported (saved (run fmt history m).2).
Proof.
  induction history as [|a rest IH]; intros m Hm; simpl.
  - split; [done | constructor].
  - pose proof (perform_carried fmt a m Hm) as H1.
    pose proof (perform_saved fmt a m Hm) as H2.
    destruct (perform fmt a m) as [m1 e1]. simpl in *.
    destruct (IH m1 H1) as [H3 H4].
    destruct (run fmt rest m1) as [m2 e2]. simpl in *.
    split; [done|]. rewrite saved_app. by apply Forall_app.
Qed.

Lemma run_fileless fmt history : ∀ m,
  forallb wired history = true → fileless m →
  fileless (run fmt history m).1 ∧ saved (run fmt history m).2 = [].
Proof.
  induction history as [|a rest IH]; intros m Hw Hm; simpl; [done|].
  simpl in Hw. apply andb_prop in Hw as [Hwa Hw].
  destruct (perform_fileless fmt a m Hwa Hm) as [H1 H2].
  destruct (perform fmt a m) as [m1 e1]. simpl in *.
  destruct (IH m1 Hw H1) as [H3 H4].
  destruct (run fmt rest m1) as [m2 e2]. simpl in *.
  split; [done|]. by rewrite saved_app, H2, H4.
Qed.

(** X19. In the third version of the script, whatever is done and
    whatever [formatFileSize] gives, every file that [handleDownload] saves
    is a file that passed [isValidFileType]. Datasets get a file from
    [processUploadedFiles] only, which no listener of the page calls: as
    long as it is not called, [handleDownload] saves nothing, every
    download ends in one of its alerts. *)
Theorem saves_only_validated_files (formatFileSize : N → string)
    (history : list Action) :
  Forall Upload.supported (saved (run formatFileSize history constructor).2)
  ∧ (forallb wired history = true →
     saved (run formatFileSize history constructor).2 = []
     ∧ ∃ message,
         handleDownload (run formatFileSize history constructor).1
         = [Page (Alert message)]).
Proof.
  split.
  - apply run_carried. repeat split; constructor.
  - intros Hw.
    destruct (run_fileless formatFileSize history constructor Hw) as [[_ Hd] Hs]; [done|].
    split; [done|]. unfold handleDownload.
    destruct (Nat.eqb _ 0); [eauto|].
    destruct (selectedFiles _) as [fs|] eqn:E; [|eauto].
    apply selectedFiles_selection in E. rewrite Hd in E. subst fs. eauto.
Qed.

Lemma saves_only_validated_files_witness :
  let history :=
    [OnModeChange "keyword";
     OnSearch "titanic" (Body [Normalizer.sampleRecord 65] EmptyString);
     OnToggle 1; OnDownload] in
  saved (run (fun _ => "1 KB") history constructor).2 = []
  ∧ handleDownload (run (fun _ => "1 KB") history constructor).1
    = [Page (Alert "No files available for download.")].
Proof.
  intros history.
  destruct (saves_only_validated_files (fun _ => "1 KB") history) as [_ H].
  destruct (H eq_refl) as [Hs _]. split; [exact Hs | reflexivity].
Defined.

Lemma find_uploaded fmt fs : ∀ i k f,
  fs !! k = Some f →
  List.find (fun d => (id d =? i + Z.of_nat k + 1)%Z) (Js.mapi_from i (uploadedDataset fmt) fs)
  = Some (uploadedDataset fmt f (i + Z.of_nat k)).
Proof.
  induction fs as [|x l IH]; intros i k f Hk; [done|].
  cbn [Js.mapi_from List.find uploadedDataset id].
  destruct k as [|k]; simpl in Hk.
  - injection Hk as ->. change (Z.of_nat 0) with 0%Z.
    rewrite Z.add_0_r, Z.eqb_refl. done.
  - assert ((i + 1 =? i + Z.of_nat (S k) + 1)%Z = false) as ->
      by (apply Z.eqb_neq; lia).
    replace (i + Z.of_nat (S k) + 1)%Z with (i + 1 + Z.of_nat k + 1)%Z by lia.
    rewrite (IH (i + 1)%Z k f Hk). f_equal. f_equal. lia.
Qed.

(** X20. After [processUploadedFiles] the uploaded files are the results,
    numbered from 1: ticking result k+1 on an empty selection and
    downloading saves the k-th uploaded file and nothing else. Removing
    the file from the uploads afterwards does not take it out of the
    selection: the download still saves it. *)
Theorem processed_upload_is_saved (formatFileSize : N → string) (m : DatasetManager)
    (k : nat) (f : File) (index : Z) :
  downloadDatasets m = [] →
  uploadedFiles m !! k = Some f →
  let selected :=
    (toggleDatasetSelection (Z.of_nat k + 1) (processUploadedFiles formatFileSize m).1).1 in
  handleDownload selected
  = [Save f; Page (Alert "Downloaded 1 file(s) successfully!")]
  ∧ handleDownload (removeFile index selected).1 = handleDownload selected.
Proof.
  intros Hd Hk selected.
  assert (downloadDatasets selected
          = [Some (uploadedDataset formatFileSize f (Z.of_nat k))]) as Hsel.
  { assert (findAvailable (Z.of_nat k + 1) (processUploadedFiles formatFileSize m).1
            = Some (uploadedDataset formatFileSize f (Z.of_nat k))) as A.
    { pose proof (find_uploaded formatFileSize _ 0%Z k f Hk) as Hf.
      rewrite !Z.add_0_l in Hf. exact Hf. }
    subst selected. unfold toggleDatasetSelection. rewrite A.
    change (downloadDatasets (processUploadedFiles formatFileSize m).1)
      with (downloadDatasets m).
    rewrite Hd. reflexivity. }
  split.
  - unfold handleDownload. rewrite Hsel. reflexivity.
  - unfold handleDownload. reflexivity.
Qed.

Lemma processed_upload_is_saved_witness :
  let a := {| Dom.name := "a.csv"; type := "text/csv"; Dom.size := 1 |} in
  let b := {| Dom.name := "b.pdf"; type := "application/pdf"; Dom.size := 2 |} in
  let m := (handleFileSelect [a; b] constructor).1 in
  handleDownload
    (toggleDatasetSelection 2 (processUploadedFiles (fun _ => "1 KB") m).1).1
  = [Save b; Page (Alert "Downloaded 1 file(s) successfully!")].
Proof.
  intros a b m.
  destruct (processed_upload_is_saved (fun _ => "1 KB") m 1 b 0 eq_refl eq_refl) as [H _].
  exact H.
Defined.

Lemma selection_ids_sublist l1 l2 : sublist l1 l2 → sublist (idsOf l1) (idsOf l2).
Proof.
  induction 1 as [|x l1 l2 _ IH|x l1 l2 _ IH]; simpl.
  - constructor.
  - destruct x as [d|]; simpl; [by constructor | done].
  - destruct x as [d|]; simpl; [by constructor | done].
Qed.

Lemma findIndex_minus1 datasetId l : findIndex datasetId l = Some None → datasetId ∉ idsOf l.
Proof.
  induction l as [|[d|] l IH]; simpl; intros H.
  - apply not_elem_of_nil.
  - destruct (id d =? datasetId)%Z eqn:E; [done|].
    apply Z.eqb_neq in E. destruct (findIndex datasetId l) as [[i|]|]; try done.
    apply not_elem_of_cons. split; [congruence | by apply IH].
  - done.
Qed.

Lemma findAvailable_has_id datasetId m d : findAvailable datasetId m = Some d → id d = datasetId.
Proof. unfold findAvailable. intros [_ H]%find_some. by apply Z.eqb_eq in H. Qed.

Lemma NoDup_pushed datasetId l (dataset : option Dataset) :
  NoDup (idsOf l) → datasetId ∉ idsOf l →
  (∀ d, dataset = Some d → id d = datasetId) →
  NoDup (idsOf (l ++ [dataset])).
Proof.
  intros Hnd Hid Hd. unfold idsOf. rewrite omap_app. fold (idsOf l).
  destruct dataset as [d|]; simpl; [|by rewrite app_nil_r].
  rewrite (Hd d eq_refl). apply NoDup_app. repeat split; [done | | apply NoDup_singleton].
  intros x Hx ->%list_elem_of_singleton. done.
Qed.

Lemma perform_keeps_distinct fmt a m :
  NoDup (idsOf (downloadDatasets m)) → NoDup (idsOf (downloadDatasets (perform fmt a m).1)).
Proof.
  intros Hnd.
  destruct a as [files|index|mode|searchInput net|datasetId|datasetId|datasetId| | |];
    simpl.
  - by rewrite handleFileSelect_uploads.
  - done.
  - done.
  - by destruct (handleSearch_state searchInput net m) as [->|(c & ds & ->)].
  - unfold toggleDatasetSelection.
    destruct (findIndex datasetId (downloadDatasets m)) as [[i|]|] eqn:F; simpl; [| |done].
    + eapply sublist_NoDup; [exact Hnd|]. apply selection_ids_sublist, sublist_delete.
    + apply (NoDup_pushed datasetId); [done | by apply findIndex_minus1|].
      intros d. apply findAvailable_has_id.
  - unfold addToDownloadList. destruct (findAvailable datasetId m) as [d|] eqn:A; [|done].
    destruct (findIndex datasetId (downloadDatasets m)) as [[i|]|] eqn:F; simpl; try done.
    apply (NoDup_pushed datasetId); [done | by apply findIndex_minus1|].
    intros d' [= <-]. by eapply findAvailable_has_id.
  - unfold removeFromDownloadList.
    destruct (filterOut datasetId (downloadDatasets m)) as [r|] eqn:F; simpl; [|done].
    eapply sublist_NoDup; [exact Hnd|]. by eapply selection_ids_sublist, filterOut_sublist.
  - constructor.
  - done.
  - done.
Qed.

(** X21. The third version of the script keeps what the two others keep:
    whatever is done, the uploaded files all have a supported extension
    and no two entries of the selection have the same id. *)
Theorem combined_invariants (formatFileSize : N → string) (history : list Action) :
  Forall Upload.supported (uploadedFiles (run formatFileSize history constructor).1)
  ∧ NoDup (idsOf (downloadDatasets (run formatFileSize history constructor).1)).
Proof.
  split.
  - apply (run_carried formatFileSize history constructor). repeat split; constructor.
  - assert (∀ m, NoDup (idsOf (downloadDatasets m)) →
                 NoDup (idsOf (downloadDatasets (run formatFileSize history m).1))) as H.
    { induction history as [|a rest IH]; intros m Hm; simpl; [done|].
      pose proof (perform_keeps_distinct formatFileSize a m Hm) as H1.
      destruct (perform formatFileSize a m) as [m1 e1]. specialize (IH m1 H1).
      by destruct (run formatFileSize rest m1). }
    apply H. constructor.
Qed.

End CombinedFacts.
